(** * Piloteer strategy plugin: wire codec, flow gate, failure intervention
    loop and rollback, embedded from
    [src/ansible_plugin/strategies/piloteer.py]. *)

From Stdlib Require Import ZArith Lia Ascii String List.
From stdpp Require Import base option list strings pretty gmap.

(** ** Python values

    The payloads the plugin handles are Python objects.  The plugin only
    distinguishes scalars ([str], [int], [float], [bool], [None]), [dict],
    [list] and "anything else".  [POther] is an object of a class that is
    none of these and that [json] cannot encode; it is represented by the
    text [str(obj)] yields for it (tuples, which [json] encodes as lists,
    are left out).  A [str] is kept as its UTF-8 bytes, a [float] by a
    literal that denotes it.  A dict keeps its items in order; keys are
    compared as written ([1], [1.0] and [True] are told apart). *)

Inductive pykey : Type :=
| KStr (s : string)
| KInt (z : Z)
| KFloat (lexeme : string)
| KBool (b : bool)
| KNone
| KOther (repr : string).

#[warnings="-register-all"] Inductive pyval : Type :=
| PNone
| PBool (b : bool)
| PInt (z : Z)
| PFloat (lexeme : string)
| PStr (s : string)
| PDict (items : list (pykey * pyval))
| PList (items : list pyval)
| POther (repr : string).

(** [isinstance(obj, (str, int, float, bool, type(None)))] *)
Definition is_scalar (obj : pyval) : bool :=
  match obj with
  | PNone | PBool _ | PInt _ | PFloat _ | PStr _ => true
  | _ => false
  end.

Definition MaxDepth : pyval := PStr "<MaxDepth>".

(** [StrategyModule._serialize_safe], lines 46-55. *)
Fixpoint _serialize_safe (obj : pyval) (depth : nat) : pyval :=
  if (5 <? depth)%nat then MaxDepth
  else match obj with
       | PNone | PBool _ | PInt _ | PFloat _ | PStr _ => obj
       | PDict items =>
           PDict (map (fun kv => (fst kv, _serialize_safe (snd kv) (S depth))) items)
       | PList items =>
           PList (map (fun v => _serialize_safe v (S depth)) items)
       | POther repr => PStr repr
       end.


(** Nesting measures used to state the depth bound: [height obj] is the
    number of levels of [obj] (a scalar has one), and [plain obj] holds
    when [obj] is built from scalars, dicts and lists only. *)
Fixpoint height (obj : pyval) : nat :=
  match obj with
  | PDict items => S (foldr (fun kv m => Nat.max (height (snd kv)) m) 0%nat items)
  | PList items => S (foldr (fun v m => Nat.max (height v) m) 0%nat items)
  | _ => 1%nat
  end.

Fixpoint plain (obj : pyval) : bool :=
  match obj with
  | PDict items => forallb (fun kv => plain (snd kv)) items
  | PList items => forallb plain items
  | POther _ => false
  | _ => true
  end.

(** [nested_dict n leaf]: [n] dicts inside one another, each with the one
    key ["k"], around [leaf]. *)
Fixpoint nested_dict (n : nat) (leaf : pyval) : pyval :=
  match n with
  | O => leaf
  | S n' => PDict [(KStr "k", nested_dict n' leaf)]
  end.

(** ** Wire codec: [json.dumps]

    The encoder of Python's [json] module with its default options
    ([ensure_ascii], separators [", "] and [": "]).  [None] is its
    [TypeError].  A [float] prints as the literal that stands for it. *)

Definition hex_digit (n : N) : ascii :=
  ascii_of_N (if (n <? 10)%N then 48 + n else 87 + n)%N.

(** [format(n, "04x")] for [n < 0x10000] *)
Definition hex4 (n : N) : string :=
  String (hex_digit (n / 4096 mod 16))
    (String (hex_digit (n / 256 mod 16))
       (String (hex_digit (n / 16 mod 16))
          (String (hex_digit (n mod 16)) EmptyString))).

Definition is_cont (b : N) : bool := ((128 <=? b) && (b <? 192))%N.

(** [bytes.decode("utf-8")]: the code points of a byte string, [None]
    for [UnicodeDecodeError]. *)
Fixpoint utf8_decode (s : string) : option (list N) :=
  match s with
  | EmptyString => Some []
  | String c0 rest =>
      let b0 := N_of_ascii c0 in
      if (b0 <? 128)%N then cons b0 <$> utf8_decode rest
      else if (b0 <? 192)%N then None
      else if (b0 <? 224)%N then
        match rest with
        | String c1 rest1 =>
            let b1 := N_of_ascii c1 in
            let cp := ((b0 - 192) * 64 + (b1 - 128))%N in
            if is_cont b1 && (128 <=? cp)%N
            then cons cp <$> utf8_decode rest1 else None
        | _ => None
        end
      else if (b0 <? 240)%N then
        match rest with
        | String c1 (String c2 rest2) =>
            let b1 := N_of_ascii c1 in
            let b2 := N_of_ascii c2 in
            let cp := ((b0 - 224) * 4096 + (b1 - 128) * 64 + (b2 - 128))%N in
            if is_cont b1 && is_cont b2 && (2048 <=? cp)%N
               && negb ((55296 <=? cp) && (cp <? 57344))%N
            then cons cp <$> utf8_decode rest2 else None
        | _ => None
        end
      else if (b0 <? 248)%N then
        match rest with
        | String c1 (String c2 (String c3 rest3)) =>
            let b1 := N_of_ascii c1 in
            let b2 := N_of_ascii c2 in
            let b3 := N_of_ascii c3 in
            let cp := ((b0 - 240) * 262144 + (b1 - 128) * 4096
                       + (b2 - 128) * 64 + (b3 - 128))%N in
            if is_cont b1 && is_cont b2 && is_cont b3
               && (65536 <=? cp)%N && (cp <? 1114112)%N
            then cons cp <$> utf8_decode rest3 else None
        | _ => None
        end
      else None
  end.

(** The code points of a [str]; a byte string that is no UTF-8 text (no
    [str] is stored that way) is read byte by byte. *)
Definition code_points (s : string) : list N :=
  default (N_of_ascii <$> list_ascii_of_string s) (utf8_decode s).

(** The characters that cannot be written inside a literal. *)
Definition dquote : string := String (ascii_of_N 34) EmptyString.
Definition backslash : string := String (ascii_of_N 92) EmptyString.
Definition newline : string := String (ascii_of_N 10) EmptyString.

(** One code point under [json.encoder.py_encode_basestring_ascii]. *)
Definition escape_code_point (cp : N) : string :=
  if (cp =? 34)%N then backslash +:+ dquote
  else if (cp =? 92)%N then "\\"
  else if (cp =? 8)%N then "\b"
  else if (cp =? 12)%N then "\f"
  else if (cp =? 10)%N then "\n"
  else if (cp =? 13)%N then "\r"
  else if (cp =? 9)%N then "\t"
  else if ((32 <=? cp) && (cp <=? 126))%N then String (ascii_of_N cp) EmptyString
  else if (cp <? 65536)%N then "\u" +:+ hex4 cp
  else let n := (cp - 65536)%N in
       "\u" +:+ hex4 (55296 + n / 1024 mod 1024)
            +:+ "\u" +:+ hex4 (56320 + n mod 1024).

Definition encode_basestring_ascii (s : string) : string :=
  dquote +:+ String.concat "" (escape_code_point <$> code_points s) +:+ dquote.

(** A dict key: [str] as it is, [int], [float], [bool] and [None] turned
    into text, anything else a [TypeError]. *)
Definition json_dumps_key (k : pykey) : option string :=
  match k with
  | KStr s => Some (encode_basestring_ascii s)
  | KInt z => Some (encode_basestring_ascii (pretty z))
  | KFloat lexeme => Some (encode_basestring_ascii lexeme)
  | KBool true => Some (encode_basestring_ascii "true")
  | KBool false => Some (encode_basestring_ascii "false")
  | KNone => Some (encode_basestring_ascii "null")
  | KOther _ => None
  end.

Fixpoint json_dumps (obj : pyval) : option string :=
  match obj with
  | PNone => Some "null"
  | PBool true => Some "true"
  | PBool false => Some "false"
  | PInt z => Some (pretty z)
  | PFloat lexeme => Some lexeme
  | PStr s => Some (encode_basestring_ascii s)
  | PDict items =>
      parts ← mapM (fun kv => k ← json_dumps_key (fst kv);
                              v ← json_dumps (snd kv);
                              Some (k +:+ ": " +:+ v)) items;
      Some ("{" +:+ String.concat ", " parts +:+ "}")
  | PList items =>
      parts ← mapM json_dumps items;
      Some ("[" +:+ String.concat ", " parts +:+ "]")
  | POther _ => None
  end.

(** ** Wire codec: [json.loads]

    The decoder of Python's [json] module: [None] is [JSONDecodeError].
    An integer literal gives an [int]; a literal with a fraction or an
    exponent, [NaN] and the infinities give a [float]. *)

Definition is_ws (c : ascii) : bool :=
  let b := N_of_ascii c in
  ((b =? 32) || (b =? 9) || (b =? 10) || (b =? 13))%N.

Fixpoint skip_ws (s : string) : string :=
  match s with
  | String c rest => if is_ws c then skip_ws rest else s
  | EmptyString => s
  end.

Definition is_digit (c : ascii) : bool :=
  let b := N_of_ascii c in ((48 <=? b) && (b <=? 57))%N.

(** The longest run of digits at the head of [s], and what follows. *)
Fixpoint span_digits (s : string) : string * string :=
  match s with
  | String c rest =>
      if is_digit c
      then let '(ds, r) := span_digits rest in (String c ds, r)
      else (EmptyString, s)
  | EmptyString => (EmptyString, s)
  end.

Fixpoint strip_prefix (p s : string) : option string :=
  match p, s with
  | EmptyString, _ => Some s
  | String a p', String b s' => if Ascii.eqb a b then strip_prefix p' s' else None
  | String _ _, EmptyString => None
  end.

Fixpoint string_drop (n : nat) (s : string) : string :=
  match n, s with
  | S n', String _ rest => string_drop n' rest
  | _, _ => s
  end.

Definition digits_value (ds : string) : Z :=
  fold_left (fun acc c => (acc * 10 + Z.of_N (N_of_ascii c - 48))%Z)
            (list_ascii_of_string ds) 0%Z.

Definition hex_value (c : ascii) : option N :=
  let b := N_of_ascii c in
  if ((48 <=? b) && (b <=? 57))%N then Some (b - 48)%N
  else if ((97 <=? b) && (b <=? 102))%N then Some (b - 87)%N
  else if ((65 <=? b) && (b <=? 70))%N then Some (b - 55)%N
  else None.

(** The four hexadecimal digits of a [\uXXXX] escape. *)
Definition hex4_decode (s : string) : option N :=
  match s with
  | String a (String b (String c (String d _))) =>
      x ← hex_value a; y ← hex_value b; z ← hex_value c; w ← hex_value d;
      Some (x * 4096 + y * 256 + z * 16 + w)%N
  | _ => None
  end.

(** [chr(cp).encode("utf-8")]; a lone surrogate, which [json] lets
    through, takes the three-byte form. *)
Definition utf8_encode (cp : N) : string :=
  let ch (n : N) := ascii_of_N n in
  if (cp <? 128)%N then String (ch cp) EmptyString
  else if (cp <? 2048)%N then
    String (ch (192 + cp / 64)%N) (String (ch (128 + cp mod 64)%N) EmptyString)
  else if (cp <? 65536)%N then
    String (ch (224 + cp / 4096)%N)
      (String (ch (128 + cp / 64 mod 64)%N)
         (String (ch (128 + cp mod 64)%N) EmptyString))
  else
    String (ch (240 + cp / 262144)%N)
      (String (ch (128 + cp / 4096 mod 64)%N)
         (String (ch (128 + cp / 64 mod 64)%N)
            (String (ch (128 + cp mod 64)%N) EmptyString))).

(** The character a one-letter escape stands for. *)
Definition unescape (e : ascii) : option string :=
  let b := N_of_ascii e in
  let one (n : N) := Some (String (ascii_of_N n) EmptyString) in
  if (b =? 34)%N then one 34%N
  else if (b =? 92)%N then one 92%N
  else if (b =? 47)%N then one 47%N
  else if (b =? 98)%N then one 8%N
  else if (b =? 102)%N then one 12%N
  else if (b =? 110)%N then one 10%N
  else if (b =? 114)%N then one 13%N
  else if (b =? 116)%N then one 9%N
  else None.

Definition is_high_surrogate (u : N) : bool := ((55296 <=? u) && (u <=? 56319))%N.
Definition is_low_surrogate (u : N) : bool := ((56320 <=? u) && (u <=? 57343))%N.

(** [json.decoder.scanstring] in strict mode, entered after the opening
    quote; [acc] is the text read so far. *)
Fixpoint scanstring (fuel : nat) (s acc : string) : option (string * string) :=
  match fuel with
  | O => None
  | S fuel' =>
      match s with
      | EmptyString => None
      | String c rest =>
          let b := N_of_ascii c in
          if (b =? 34)%N then Some (acc, rest)
          else if (b =? 92)%N then
            match rest with
            | EmptyString => None
            | String e rest' =>
                if (N_of_ascii e =? 117)%N then
                  uni ← hex4_decode rest';
                  let after := string_drop 4 rest' in
                  let single := scanstring fuel' after (acc +:+ utf8_encode uni) in
                  if is_high_surrogate uni then
                    match strip_prefix (backslash +:+ "u") after with
                    | Some low =>
                        uni2 ← hex4_decode low;
                        if is_low_surrogate uni2
                        then scanstring fuel' (string_drop 4 low)
                               (acc +:+ utf8_encode
                                  (65536 + (uni - 55296) * 1024 + (uni2 - 56320))%N)
                        else single
                    | None => single
                    end
                  else single
                else ch ← unescape e; scanstring fuel' rest' (acc +:+ ch)
            end
          else if (b <? 32)%N then None
          else scanstring fuel' rest (acc +:+ String c EmptyString)
      end
  end.

(** [NUMBER_RE.match]: an optional minus sign, then a zero or a run of
    digits that does not start with one, then an optional fraction (a dot
    and digits) and an optional exponent (e or E, a sign, digits). *)
Definition match_number (s : string) : option (pyval * string) :=
  let '(neg, s1) := match strip_prefix "-" s with
                    | Some r => (true, r)
                    | None => (false, s)
                    end in
  match s1 with
  | String c after_c =>
      if is_digit c then
        let '(int_digits, r1) :=
          if (N_of_ascii c =? 48)%N then ("0", after_c) else span_digits s1 in
        let '(frac, r2) :=
          match strip_prefix "." r1 with
          | Some r => let '(ds, r') := span_digits r in
                      if String.eqb ds "" then ("", r1) else ("." +:+ ds, r')
          | None => ("", r1)
          end in
        let '(exp, r3) :=
          match r2 with
          | String e r =>
              if ((N_of_ascii e =? 101) || (N_of_ascii e =? 69))%N then
                let '(sign, r') :=
                  match r with
                  | String sg r'' =>
                      if ((N_of_ascii sg =? 43) || (N_of_ascii sg =? 45))%N
                      then (String sg EmptyString, r'') else ("", r)
                  | EmptyString => ("", r)
                  end in
                let '(ds, r'') := span_digits r' in
                if String.eqb ds "" then ("", r2)
                else (String e sign +:+ ds, r'')
              else ("", r2)
          | EmptyString => ("", r2)
          end in
        if String.eqb frac "" && String.eqb exp ""
        then Some (PInt (if neg then Z.opp (digits_value int_digits)
                         else digits_value int_digits), r3)
        else Some (PFloat ((if neg then "-" else "") +:+ int_digits +:+ frac +:+ exp), r3)
      else None
  | EmptyString => None
  end.

#[global] Instance pykey_eq_dec : EqDecision pykey.
Proof. solve_decision. Defined.

(** A [dict] keeps its items in insertion order; assigning to a key that
    is present replaces the value where it stands. *)
Fixpoint dict_get {V : Type} (k : pykey) (d : list (pykey * V)) : option V :=
  match d with
  | [] => None
  | (k', v) :: d' => if decide (k' = k) then Some v else dict_get k d'
  end.

Fixpoint dict_set {V : Type} (k : pykey) (v : V) (d : list (pykey * V))
  : list (pykey * V) :=
  match d with
  | [] => [(k, v)]
  | (k', v') :: d' =>
      if decide (k' = k) then (k', v) :: d' else (k', v') :: dict_set k v d'
  end.

(** [dict(pairs)] *)
Definition dict_of_pairs {V : Type} (pairs : list (pykey * V)) : list (pykey * V) :=
  fold_left (fun d kv => dict_set (fst kv) (snd kv) d) pairs [].

(** [scan_once], [JSONArray] and [JSONObject] of [json.decoder]; the array
    and object loops are entered at the first element and at the opening
    quote of the first key, with the items read so far in [acc]. *)
Fixpoint scan_once (fuel : nat) (s : string) : option (pyval * string) :=
  match fuel with
  | O => None
  | S fuel' =>
      match s with
      | EmptyString => None
      | String c rest =>
          let b := N_of_ascii c in
          if (b =? 34)%N then
            '(str, r) ← scanstring (S (String.length rest)) rest "";
            Some (PStr str, r)
          else if (b =? 123)%N then
            match skip_ws rest with
            | String c' r =>
                if (N_of_ascii c' =? 125)%N then Some (PDict [], r)
                else if (N_of_ascii c' =? 34)%N then
                  '(pairs, r') ← JSONObject fuel' r [];
                  Some (PDict (dict_of_pairs pairs), r')
                else None
            | EmptyString => None
            end
          else if (b =? 91)%N then
            match skip_ws rest with
            | String c' r =>
                if (N_of_ascii c' =? 93)%N then Some (PList [], r)
                else '(values, r') ← JSONArray fuel' (String c' r) [];
                     Some (PList values, r')
            | EmptyString => None
            end
          else
            match strip_prefix "null" s, strip_prefix "true" s,
                  strip_prefix "false" s with
            | Some r, _, _ => Some (PNone, r)
            | _, Some r, _ => Some (PBool true, r)
            | _, _, Some r => Some (PBool false, r)
            | None, None, None =>
                match match_number s with
                | Some res => Some res
                | None =>
                    match strip_prefix "NaN" s, strip_prefix "Infinity" s,
                          strip_prefix "-Infinity" s with
                    | Some r, _, _ => Some (PFloat "NaN", r)
                    | _, Some r, _ => Some (PFloat "Infinity", r)
                    | _, _, Some r => Some (PFloat "-Infinity", r)
                    | None, None, None => None
                    end
                end
            end
      end
  end
with JSONArray (fuel : nat) (s : string) (acc : list pyval)
  : option (list pyval * string) :=
  match fuel with
  | O => None
  | S fuel' =>
      '(value, r) ← scan_once fuel' s;
      match skip_ws r with
      | String c r' =>
          if (N_of_ascii c =? 93)%N then Some (acc ++ [value], r')
          else if (N_of_ascii c =? 44)%N
               then JSONArray fuel' (skip_ws r') (acc ++ [value])
               else None
      | EmptyString => None
      end
  end
with JSONObject (fuel : nat) (s : string) (acc : list (pykey * pyval))
  : option (list (pykey * pyval) * string) :=
  match fuel with
  | O => None
  | S fuel' =>
      '(key, r) ← scanstring (S (String.length s)) s "";
      match skip_ws r with
      | String colon r1 =>
          if (N_of_ascii colon =? 58)%N then
            '(value, r2) ← scan_once fuel' (skip_ws r1);
            match skip_ws r2 with
            | String c r3 =>
                if (N_of_ascii c =? 125)%N
                then Some (acc ++ [(KStr key, value)], r3)
                else if (N_of_ascii c =? 44)%N then
                  match skip_ws r3 with
                  | String q r4 =>
                      if (N_of_ascii q =? 34)%N
                      then JSONObject fuel' r4 (acc ++ [(KStr key, value)])
                      else None
                  | EmptyString => None
                  end
                else None
            | EmptyString => None
            end
          else None
      | EmptyString => None
      end
  end.

(** [json.loads]: one value between optional white space, nothing after.
    A call of [scan_once] or of a loop takes at least one character off the
    text, so twice its length is budget enough. *)
Definition json_loads (s : string) : option pyval :=
  '(obj, r) ← scan_once (2 * String.length s + 2) (skip_ws s);
  if String.eqb (skip_ws r) "" then Some obj else None.

(** ** The strategy object and the engine state it touches *)

(** Engine-owned objects the plugin only passes around: a host's
    execution position and the play context.  The plugin holds references
    to them; [dict.copy] is shallow, so a snapshot holds the same
    references. *)
Inductive HostState : Type := HostStateRef (id : nat).
Inductive PlayContext : Type := PlayContextRef (id : nat).

#[global] Instance HostState_eq_dec : EqDecision HostState.
Proof. solve_decision. Defined.

Record Task : Type := mkTask {
  _uuid : string;
  get_name : string
}.

(** A variable dict: names to values, in order. *)
Definition vars : Type := list (string * pyval).

(** An entry of [_queued_task_cache]. *)
Record cached_args : Type := mkCached {
  cached_task_vars : vars;
  cached_play_context : PlayContext
}.

(** A task result as the engine hands it over.  [_result] and
    [_return_data] name the same dict, [_host] and [host] the same host,
    of which only the name is used. *)
Record TaskResult : Type := mkResult {
  host_name : string;
  _task : Task;
  task_name : string;
  _return_data : list (pykey * pyval);
  is_unreachable : bool;
  is_failed : bool;
  is_changed : bool
}.

(** The controller socket: [inbound] lists what the successive [recv]
    calls return (raw bytes; the empty string is the peer's close and
    stays at the head), [outbound] what [sendall] was given. *)
Record socket : Type := mkSocket {
  inbound : list string;
  outbound : list string
}.

(** What the control thread does, in order: every [_send],
    [_wait_for_proceed], [_wait_for_command] and [_queue_task] call. *)
Inductive event : Type :=
| Emit (data : pyval)
| AwaitProceed
| AwaitCommand
| Requeue (host : string) (task : Task) (task_vars : vars) (ctx : PlayContext).

(** The strategy object with what it reaches in the engine:
    [self.sock] ([None] once degraded); [iterator.host_states] ([None]
    when the iterator has no such attribute); [self._tqm._failed_hosts];
    [iterator._play._removed_hosts]; [self._tqm._stats.failures];
    [self._blocked_hosts]; [self._queued_task_cache], keyed by host name
    and task uuid; [self._variable_manager.extra_vars];
    [self.play_context]; and the record of the calls made. *)
Record state : Type := mkState {
  sock : option socket;
  host_states : option (gmap string HostState);
  _failed_hosts : gmap string bool;
  _removed_hosts : list string;
  failures : gmap string nat;
  _blocked_hosts : gmap string bool;
  _queued_task_cache : gmap (string * string) cached_args;
  extra_vars : list (pykey * pyval);
  play_context : PlayContext;
  log : list event
}.

Definition set_sock (v : option socket) (st : state) : state :=
  mkState v (host_states st) (_failed_hosts st) (_removed_hosts st)
    (failures st) (_blocked_hosts st) (_queued_task_cache st) (extra_vars st)
    (play_context st) (log st).
Definition set_host_states (v : option (gmap string HostState)) (st : state) : state :=
  mkState (sock st) v (_failed_hosts st) (_removed_hosts st)
    (failures st) (_blocked_hosts st) (_queued_task_cache st) (extra_vars st)
    (play_context st) (log st).
Definition set_failed_hosts (v : gmap string bool) (st : state) : state :=
  mkState (sock st) (host_states st) v (_removed_hosts st)
    (failures st) (_blocked_hosts st) (_queued_task_cache st) (extra_vars st)
    (play_context st) (log st).
Definition set_removed_hosts (v : list string) (st : state) : state :=
  mkState (sock st) (host_states st) (_failed_hosts st) v
    (failures st) (_blocked_hosts st) (_queued_task_cache st) (extra_vars st)
    (play_context st) (log st).
Definition set_failures (v : gmap string nat) (st : state) : state :=
  mkState (sock st) (host_states st) (_failed_hosts st) (_removed_hosts st)
    v (_blocked_hosts st) (_queued_task_cache st) (extra_vars st)
    (play_context st) (log st).
Definition set_blocked_hosts (v : gmap string bool) (st : state) : state :=
  mkState (sock st) (host_states st) (_failed_hosts st) (_removed_hosts st)
    (failures st) v (_queued_task_cache st) (extra_vars st)
    (play_context st) (log st).
Definition set_extra_vars (v : list (pykey * pyval)) (st : state) : state :=
  mkState (sock st) (host_states st) (_failed_hosts st) (_removed_hosts st)
    (failures st) (_blocked_hosts st) (_queued_task_cache st) v
    (play_context st) (log st).
Definition add_event (e : event) (st : state) : state :=
  mkState (sock st) (host_states st) (_failed_hosts st) (_removed_hosts st)
    (failures st) (_blocked_hosts st) (_queued_task_cache st) (extra_vars st)
    (play_context st) (log st ++ [e]).

(** ** A monad for the control thread

    A method runs on a state and returns, or never returns because a
    [recv] waits for bytes that do not come ([Block]), or raises. *)
Inductive exn : Type :=
| UnicodeDecodeError
| AttributeError
| TypeError.

Inductive result (A : Type) : Type :=
| Ret (a : A) (st : state)
| Block (st : state)
| Raise (e : exn) (st : state)
| OutOfFuel.
Arguments Ret {A} a st.
Arguments Block {A} st.
Arguments Raise {A} e st.
Arguments OutOfFuel {A}.


Definition M (A : Type) : Type := state -> result A.

Definition ret {A : Type} (a : A) : M A := fun st => Ret a st.
Definition bind {A B : Type} (m : M A) (k : A -> M B) : M B :=
  fun st => match m st with
            | Ret a st' => k a st'
            | Block st' => Block st'
            | Raise e st' => Raise e st'
            | OutOfFuel => OutOfFuel
            end.
Definition raise {A : Type} (e : exn) : M A := fun st => Raise e st.
Definition get : M state := fun st => Ret st st.
Definition modify (f : state -> state) : M unit := fun st => Ret tt (f st).

Notation "x <- m ;; k" := (bind m (fun x => k))
  (at level 100, m at level 99, right associativity).
Notation "m ;;; k" := (bind m (fun _ => k))
  (at level 100, right associativity).

(** ** Controller session and flow gate *)

(** [StrategyModule._send], lines 38-44.  With no socket nothing is sent.
    The [TypeError] of the first [json.dumps] is caught; one of the second
    would not be. *)
Definition _send (data : pyval) : M unit :=
  modify (add_event (Emit data)) ;;;
  st <- get ;;
  match sock st with
  | Some s =>
      msg <- match json_dumps data with
             | Some text => ret (text +:+ newline)
             | None =>
                 match json_dumps (PDict [(KStr "Error", PStr "Serialization Failed")]) with
                 | Some text => ret (text +:+ newline)
                 | None => raise TypeError
                 end
             end ;;
      modify (set_sock (Some (mkSocket (inbound s) (outbound s ++ [msg]))))
  | None => ret tt
  end.

(** [msg == s] for a [str] literal [s] *)
Definition py_eq_str (msg : pyval) (s : string) : bool :=
  match msg with
  | PStr t => String.eqb t s
  | _ => false
  end.

(** [buffer.split(newline, 1)] when the buffer holds a newline, [None]
    when it holds none. *)
Fixpoint split_line (buffer : string) : option (string * string) :=
  match buffer with
  | EmptyString => None
  | String c rest =>
      if (N_of_ascii c =? 10)%N then Some (EmptyString, rest)
      else '(line, rest') ← split_line rest; Some (String c line, rest')
  end.

(** How a read loop over the socket ends: with a value and the chunks
    left unread, or waiting in [recv] for ever, or with the
    [UnicodeDecodeError] of [decode]. *)
Inductive wait_result (A : Type) : Type :=
| Got (a : A) (rest : list string)
| Stalled
| Undecodable (rest : list string).
Arguments Got {A} a rest.
Arguments Stalled {A}.
Arguments Undecodable {A} rest.

(** The [while True] loop of [_wait_for_proceed], lines 61-74: one [recv]
    per turn, at most one line taken from the buffer per turn. *)
Fixpoint wait_for_proceed_loop (inb : list string) (buffer : string)
  : wait_result unit :=
  match inb with
  | [] => Stalled
  | raw :: rest =>
      match utf8_decode raw with
      | None => Undecodable rest
      | Some _ =>
          if String.eqb raw "" then Got tt inb
          else
            let buffer := buffer +:+ raw in
            match split_line buffer with
            | Some (line, buffer') =>
                match json_loads line with
                | Some msg =>
                    if py_eq_str msg "Proceed" then Got tt rest
                    else wait_for_proceed_loop rest buffer'
                | None => wait_for_proceed_loop rest buffer'
                end
            | None => wait_for_proceed_loop rest buffer
            end
      end
  end.

(** Runs a read loop on the socket [s] of the state. *)
Definition on_socket {A : Type} (s : socket)
    (loop : list string -> string -> wait_result A) : M A :=
  fun st =>
    let leave rest := set_sock (Some (mkSocket rest (outbound s))) st in
    match loop (inbound s) "" with
    | Got a rest => Ret a (leave rest)
    | Stalled => Block (leave [])
    | Undecodable rest => Raise UnicodeDecodeError (leave rest)
    end.

(** [StrategyModule._wait_for_proceed], lines 57-74. *)
Definition _wait_for_proceed : M unit :=
  modify (add_event AwaitProceed) ;;;
  st <- get ;;
  match sock st with
  | None => ret tt
  | Some s => on_socket s wait_for_proceed_loop
  end.

(** [isinstance(msg, dict) and "ModifyVar" in msg], with [msg["ModifyVar"]] *)
Definition modify_var_payload (msg : pyval) : option pyval :=
  match msg with
  | PDict items => dict_get (KStr "ModifyVar") items
  | _ => None
  end.

(** The [while True] loop of [_wait_for_command], lines 234-253. *)
Fixpoint wait_for_command_loop (inb : list string) (buffer : string)
  : wait_result (string * pyval) :=
  match inb with
  | [] => Stalled
  | raw :: rest =>
      match utf8_decode raw with
      | None => Undecodable rest
      | Some _ =>
          if String.eqb raw "" then Got ("Continue", PNone) inb
          else
            let buffer := buffer +:+ raw in
            match split_line buffer with
            | Some (line, buffer') =>
                match json_loads line with
                | Some msg =>
                    if py_eq_str msg "Retry" then Got ("Retry", PNone) rest
                    else match modify_var_payload msg with
                         | Some payload => Got ("ModifyVar", payload) rest
                         | None =>
                             if py_eq_str msg "Continue"
                             then Got ("Continue", PNone) rest
                             else if py_eq_str msg "Proceed"
                             then Got ("Continue", PNone) rest
                             else wait_for_command_loop rest buffer'
                         end
                | None => wait_for_command_loop rest buffer'
                end
            | None => wait_for_command_loop rest buffer
            end
      end
  end.

(** [StrategyModule._wait_for_command], lines 230-253. *)
Definition _wait_for_command : M (string * pyval) :=
  modify (add_event AwaitCommand) ;;;
  st <- get ;;
  match sock st with
  | None => ret ("Continue", PNone)
  | Some s => on_socket s wait_for_command_loop
  end.

(** ** The engine behind the plugin

    The methods of the linear strategy the plugin overrides and calls
    through [super()], and the variable manager.  They belong to the
    engine, so they are an interface here. *)
Class Engine : Type := {
  linear_process_pending_results : nat -> bool -> state -> list TaskResult * state;
  linear_get_next_task_lockstep :
    list string -> state -> list (string * option Task) * state;
  (** [get_vars(play=..., host=..., task=...)]; the flag tells whether the
      play was given *)
  get_vars : bool -> string -> Task -> state -> vars
}.

(** [bool(obj)]; a [float] is false when its literal denotes zero
    (a literal so small that it rounds to zero is not told apart). *)
Definition float_nonzero (lexeme : string) : bool :=
  let fix mantissa (s : string) : bool :=
    match s with
    | EmptyString => false
    | String c rest =>
        let b := N_of_ascii c in
        if ((b =? 101) || (b =? 69))%N then false
        else ((49 <=? b) && (b <=? 57))%N || (b =? 78)%N || (b =? 73)%N
             || mantissa rest
    end in
  mantissa lexeme.

Definition truthy (obj : pyval) : bool :=
  match obj with
  | PNone => false
  | PBool b => b
  | PInt z => negb (z =? 0)%Z
  | PFloat lexeme => float_nonzero lexeme
  | PStr s => negb (String.eqb s "")
  | PDict items => match items with [] => false | _ => true end
  | PList items => match items with [] => false | _ => true end
  | POther _ => true
  end.

(** The key an object makes in a dict; a dict or a list is unhashable. *)
Definition hashable (obj : pyval) : option pykey :=
  match obj with
  | PNone => Some KNone
  | PBool b => Some (KBool b)
  | PInt z => Some (KInt z)
  | PFloat lexeme => Some (KFloat lexeme)
  | PStr s => Some (KStr s)
  | POther repr => Some (KOther repr)
  | PDict _ | PList _ => None
  end.

(** [list.remove(x)]: the first occurrence goes. *)
Fixpoint list_remove (x : string) (l : list string) : list string :=
  match l with
  | [] => []
  | y :: l' => if String.eqb y x then l' else y :: list_remove x l'
  end.

(** The engine's [AggregateStats.decrement]: one less, never below zero. *)
Definition decrement (host : string) (counts : gmap string nat) : gmap string nat :=
  <[host := Nat.pred (default 0 (counts !! host))]> counts.

(** The engine's [_queue_task], of which the call is recorded. *)
Definition _queue_task (host : string) (task : Task) (task_vars : vars)
    (ctx : PlayContext) : M unit :=
  modify (add_event (Requeue host task task_vars ctx)).

(** The wire messages *)
Definition message (tag : string) (fields : list (pykey * pyval)) : pyval :=
  PDict [(KStr tag, PDict fields)].

Definition TaskUnreachable (name host : string) (error result : pyval) : pyval :=
  message "TaskUnreachable"
    [(KStr "name", PStr name); (KStr "host", PStr host);
     (KStr "error", error); (KStr "result", result)].

Definition TaskFail (name : string) (result : pyval) : pyval :=
  message "TaskFail" [(KStr "name", PStr name); (KStr "result", result)].

Definition TaskResultMsg (name host : string) (changed failed : bool)
    (verbose_result : pyval) : pyval :=
  message "TaskResult"
    [(KStr "name", PStr name); (KStr "host", PStr host);
     (KStr "changed", PBool changed); (KStr "failed", PBool failed);
     (KStr "verbose_result", verbose_result)].

Definition TaskStart (name : string) (task_vars : list (pykey * pyval)) : pyval :=
  message "TaskStart" [(KStr "name", PStr name); (KStr "task_vars", PDict task_vars)].

(** The [Retry] branch, lines 160-191. *)
Definition retry `{Engine} (prev_host_states : gmap string HostState)
    (res : TaskResult) : M unit :=
  let host := host_name res in
  (* 1. Restore Iterator State *)
  match prev_host_states !! host with
  | Some snapshot =>
      modify (fun st => set_host_states (<[host := snapshot]> <$> host_states st) st)
  | None => ret tt
  end ;;;
  (* 2. Un-fail host in TQM *)
  modify (fun st => set_failed_hosts (delete host (_failed_hosts st)) st) ;;;
  (* 3. Put back in active hosts if it was removed *)
  modify (fun st => set_removed_hosts (list_remove host (_removed_hosts st)) st) ;;;
  (* 4. Decrement Stats *)
  modify (fun st => set_failures (decrement host (failures st)) st) ;;;
  (* 5. Re-queue *)
  modify (fun st => set_blocked_hosts (<[host := true]> (_blocked_hosts st)) st) ;;;
  st <- get ;;
  let '(task_vars, ctx) :=
    match _queued_task_cache st !! (host, _uuid (_task res)) with
    | Some cached => (cached_task_vars cached, cached_play_context cached)
    | None => (get_vars true host (_task res) st, play_context st)
    end in
  _queue_task host (_task res) task_vars ctx.

(** The [ModifyVar] branch, lines 193-198. *)
Definition modify_var (cmd_data : pyval) : M unit :=
  match cmd_data with
  | PDict items =>
      let key := default PNone (dict_get (KStr "key") items) in
      let val := default PNone (dict_get (KStr "value") items) in
      if truthy key then
        match hashable key with
        | Some k => modify (fun st => set_extra_vars (dict_set k val (extra_vars st)) st)
        | None => raise TypeError
        end
      else ret tt
  | _ => raise AttributeError
  end.

(** The "Debug Mode" loop, lines 157-211.  It returns the results kept so
    far.  A turn that does not leave the loop has read from the socket, so
    [fuel] counts what is left to read. *)
Fixpoint debug_loop `{Engine} (fuel : nat) (prev_host_states : gmap string HostState)
    (res : TaskResult) (safe_result : pyval) (cleaned_results : list TaskResult)
  : M (list TaskResult) :=
  match fuel with
  | O => fun _ => OutOfFuel
  | S fuel' =>
      cmd <- _wait_for_command ;;
      let '(cmd_type, cmd_data) := cmd in
      if String.eqb cmd_type "Retry" then
        retry prev_host_states res ;;;
        ret cleaned_results
      else if String.eqb cmd_type "ModifyVar" then
        modify_var cmd_data ;;;
        debug_loop fuel' prev_host_states res safe_result cleaned_results
      else if String.eqb cmd_type "Continue" then
        _send (TaskResultMsg (task_name res) (host_name res) false true safe_result) ;;;
        ret (cleaned_results ++ [res])
      else debug_loop fuel' prev_host_states res safe_result cleaned_results
  end.

(** What is left to read on the socket, plus one. *)
Definition loop_fuel (st : state) : nat :=
  S (match sock st with Some s => length (inbound s) | None => 0 end).

(** The body of [for res in results], lines 123-226. *)
Definition process_result `{Engine} (prev_host_states : gmap string HostState)
    (res : TaskResult) (cleaned_results : list TaskResult) : M (list TaskResult) :=
  if is_unreachable res then
    let error_msg :=
      default (PStr "Host unreachable") (dict_get (KStr "msg") (_return_data res)) in
    let safe_result := _serialize_safe (PDict (_return_data res)) 0 in
    _send (TaskUnreachable (get_name (_task res)) (host_name res) error_msg safe_result) ;;;
    ret (cleaned_results ++ [res])
  else if is_failed res then
    let safe_result := _serialize_safe (PDict (_return_data res)) 0 in
    _send (TaskFail (task_name res) safe_result) ;;;
    st <- get ;;
    debug_loop (loop_fuel st) prev_host_states res safe_result cleaned_results
  else
    let safe_result := _serialize_safe (PDict (_return_data res)) 0 in
    _send (TaskResultMsg (task_name res) (host_name res) (is_changed res) false
             safe_result) ;;;
    ret (cleaned_results ++ [res]).

Fixpoint process_results `{Engine} (prev_host_states : gmap string HostState)
    (results : list TaskResult) (cleaned_results : list TaskResult)
  : M (list TaskResult) :=
  match results with
  | [] => ret cleaned_results
  | res :: results' =>
      cleaned_results' <- process_result prev_host_states res cleaned_results ;;
      process_results prev_host_states results' cleaned_results'
  end.

(** [StrategyModule._process_pending_results], lines 111-228. *)
Definition _process_pending_results `{Engine} (max_passes : nat) (one_pass : bool)
  : M (list TaskResult) :=
  st <- get ;;
  let prev_host_states := default ∅ (host_states st) in
  results <- (fun st => let '(results, st') :=
                          linear_process_pending_results max_passes one_pass st in
                        Ret results st') ;;
  process_results prev_host_states results [].

(** ** Event emitter: the pre-dispatch hook *)

Definition NonSerializable : pyval := PStr "<Non-Serializable>".

(** The loop over [task_vars.items()], lines 264-271. *)
Definition filter_step (serializable_vars : list (pykey * pyval))
    (kv : string * pyval) : list (pykey * pyval) :=
  let '(k, v) := kv in
  if String.prefix "ansible_" k then serializable_vars
  else match json_dumps v with
       | Some _ => dict_set (KStr k) v serializable_vars
       | None => dict_set (KStr k) NonSerializable serializable_vars
       end.

Definition filter_vars (task_vars : vars) : list (pykey * pyval) :=
  fold_left filter_step task_vars [].


(** ** Vocabulary of the statements *)

(** The line [_send] falls back on, as it goes on the wire. *)
Definition error_text : string :=
  "{" +:+ dquote +:+ "Error" +:+ dquote +:+ ": "
      +:+ dquote +:+ "Serialization Failed" +:+ dquote +:+ "}".
Definition error_line : string := error_text +:+ newline.

(** What [_send] does, in closed form: the line that goes on the wire for
    [data], and the state after the call. *)
Definition wire (data : pyval) : string :=
  match json_dumps data with
  | Some text => text +:+ newline
  | None => error_line
  end.

Definition deliver (data : pyval) (st : state) : state :=
  set_sock ((fun s => mkSocket (inbound s) (outbound s ++ [wire data])) <$> sock st)
    (add_event (Emit data) st).

(** [first_line inb msg rest]: the next [recv] returns bytes whose first
    line decodes to [msg], and [rest] is what the later [recv] calls
    return.  [next_message st msg rest]: the session is connected and its
    socket is in that situation. *)
Definition first_line (inb : list string) (msg : pyval) (rest : list string) : Prop :=
  exists raw line buffer',
    inb = raw :: rest /\
    String.eqb raw "" = false /\ is_Some (utf8_decode raw) /\
    split_line raw = Some (line, buffer') /\ json_loads line = Some msg.

Definition next_message (st : state) (msg : pyval) (rest : list string) : Prop :=
  exists s, sock st = Some s /\ first_line (inbound s) msg rest.

(** The state once the socket has been read down to [rest]. *)
Definition consume (rest : list string) (st : state) : state :=
  match sock st with
  | Some s => set_sock (Some (mkSocket rest (outbound s))) st
  | None => st
  end.

(** The number of reads the socket of a state still has to give. *)
Definition pending (st : state) : nat :=
  match sock st with
  | Some s => length (inbound s)
  | None => 0
  end.

(** ** Sample inputs *)

(** A payload with four levels: a dict holding a list that holds a dict
    of scalars. *)
Definition four_levels : pyval :=
  PDict [(KStr "stdout", PStr "ok");
         (KStr "results",
          PList [PDict [(KStr "rc", PInt 0); (KStr "changed", PBool false)];
                 PNone])].

(** The JSON text of a bare signal, with its newline, and of a
    [ModifyVar] command with text for key and value. *)
Definition jstr (s : string) : string := dquote +:+ s +:+ dquote.

Definition signal_line (name : string) : string := jstr name +:+ newline.

Definition modify_var_line (key value : string) : string :=
  "{" +:+ jstr "ModifyVar" +:+ ": {" +:+ jstr "key" +:+ ": " +:+ jstr key
      +:+ ", " +:+ jstr "value" +:+ ": " +:+ jstr value +:+ "}}" +:+ newline.

(** One read that brings a malformed line and, behind it, [Proceed]. *)
Definition garbage_then_proceed : string :=
  "garbage" +:+ newline +:+ signal_line "Proceed".

(** A strategy object at rest, nothing failed and nothing queued, and a
    connected one whose peer has the chunks [inb] under way. *)
Definition idle (s : option socket) : state :=
  mkState s (Some ∅) ∅ [] ∅ ∅ ∅ [] (PlayContextRef 0) [].

Definition connected (inb : list string) : state := idle (Some (mkSocket inb [])).

(** A message whose encoding raises [TypeError]: a result dict with a
    tuple as a key. *)
Definition unencodable : pyval :=
  TaskFail "copy" (PDict [(KOther "(1, 2)", PInt 1)]).

(** The bookkeeping of the engine for a failed result: the host moves to
    a failed position, joins the failed and the removed hosts, and its
    failure count goes up. *)
Definition record_failure (res : TaskResult) (st : state) : state :=
  if is_failed res then
    let host := host_name res in
    set_host_states (<[host := HostStateRef 99]> <$> host_states st)
      (set_failed_hosts (<[host := true]> (_failed_hosts st))
         (set_removed_hosts (_removed_hosts st ++ [host])
            (set_failures (<[host := S (default 0 (failures st !! host))]> (failures st))
               st)))
  else st.

(** An engine for the examples: its pass hands over [results] and records
    the failed ones; its scheduler hands over [hosts_tasks]; a host has its
    own name as [inventory_hostname] and then the variables [task_vars]. *)
Definition sample_engine (results : list TaskResult)
    (hosts_tasks : list (string * option Task)) (task_vars : vars) : Engine :=
  {| linear_process_pending_results :=
       fun _ _ st => (results, foldr record_failure st results);
     linear_get_next_task_lockstep := fun _ st => (hosts_tasks, st);
     get_vars := fun _ host _ _ => ("inventory_hostname", PStr host) :: task_vars |}.

Definition copy_task : Task := mkTask "uuid-1" "copy file".

(** The task [copy_task] failed on [web1]. *)
Definition failed_copy : TaskResult :=
  mkResult "web1" copy_task "copy file"
    [(KStr "msg", PStr "no such file"); (KStr "rc", PInt 1)] false true false.

(** The host [db1] could not be reached for the task [ping]. *)
Definition unreachable_ping : TaskResult :=
  mkResult "db1" (mkTask "uuid-2" "ping") "ping"
    [(KStr "msg", PStr "No route to host"); (KStr "unreachable", PBool true)]
    true false false.

(** A run in which [web1] stands at position 7 before the pass, and the
    controller answers the failure with [Retry]. *)
Definition before_pass : state :=
  mkState (Some (mkSocket [signal_line "Retry"] []))
    (Some {[ "web1" := HostStateRef 7 ]}) ∅ [] ∅ ∅ ∅ [] (PlayContextRef 0) [].

(** Variables of a host: one engine-internal, one plain, one that [json]
    cannot encode. *)
Definition sample_vars : vars :=
  [("ansible_host", PStr "10.0.0.1"); ("app_port", PInt 8080);
   ("handle", POther "<socket object>")].


(** * Further code: definitions *)

(** ** Payloads that encode *)


(** A host that could not be reached, with bytes for the message. *)
Definition unreachable_bytes : TaskResult :=
  mkResult "db1" (mkTask "uuid-2" "ping") "ping"
    [(KStr "msg", POther "b'No route to host'"); (KStr "unreachable", PBool true)]
    true false false.

(** What [json.dumps] takes in a dict of variables: a text key and a
    value that encodes. *)
Definition sendable (kv : pykey * pyval) : Prop :=
  (exists s, fst kv = KStr s) /\ is_Some (json_dumps (snd kv)).

(** ** Streams of reads *)







(** ** Accounting of a pass *)

(** The number of [_queue_task] calls on record. *)
Fixpoint requeues (events : list event) : nat :=
  match events with
  | [] => 0
  | Requeue _ _ _ _ :: events' => S (requeues events')
  | _ :: events' => requeues events'
  end.

(** The engine's bookkeeping a rollback touches. *)
Definition bookkeeping (st : state)
  : option (gmap string HostState) * gmap string bool * list string
    * gmap string nat * gmap string bool :=
  (host_states st, _failed_hosts st, _removed_hosts st, failures st,
   _blocked_hosts st).

(** How one turn through the intervention loop may end when it returns:
    the result is dropped and one task queued, or the result is kept,
    nothing queued and the bookkeeping left alone. *)
Definition dropped_or_kept (cleaned_results : list TaskResult) (res : TaskResult)
    (st : state) (out : list TaskResult) (st' : state) : Prop :=
  (out = cleaned_results /\ requeues (log st') = S (requeues (log st))) \/
  (out = cleaned_results ++ [res] /\ requeues (log st') = requeues (log st) /\
   bookkeeping st' = bookkeeping st).

(** The one message a result that opens no intervention is reported
    with. *)
Definition report (res : TaskResult) : pyval :=
  let safe_result := _serialize_safe (PDict (_return_data res)) 0 in
  if is_unreachable res then
    TaskUnreachable (get_name (_task res)) (host_name res)
      (default (PStr "Host unreachable") (dict_get (KStr "msg") (_return_data res)))
      safe_result
  else
    TaskResultMsg (task_name res) (host_name res) (is_changed res) false safe_result.

(** A result that opens no intervention: unreachable, or not failed. *)
Definition no_intervention (res : TaskResult) : Prop :=
  is_unreachable res = true \/ is_failed res = false.

(** [isinstance(obj, dict)] *)
Definition is_dict (obj : pyval) : bool :=
  match obj with
  | PDict _ => true
  | _ => false
  end.

(** A [ModifyVar] whose payload is a number, and one whose key is a list. *)
Definition modify_var_number_line : string :=
  "{" +:+ jstr "ModifyVar" +:+ ": 5}" +:+ newline.

Definition modify_var_list_key_line : string :=
  "{" +:+ jstr "ModifyVar" +:+ ": {" +:+ jstr "key" +:+ ": [1], "
      +:+ jstr "value" +:+ ": 2}}" +:+ newline.

(** ** Connecting to the controller *)

(** The process environment, as far as the plugin reads it. *)
Record environ : Type := mkEnviron {
  PILOTEER_SOCKET : option string;
  PILOTEER_SECRET : option string
}.

(** The network as the plugin meets it.  [connect_unix path] is
    [socket(AF_UNIX)] and [connect(path)]; [connect_tcp host port] is
    [socket(AF_INET)] and [connect((host, int(port)))] with the port as
    the text found in the address.  Each gives what the peer will send on
    the new connection, or [None] when one of the calls raises (an address
    that does not answer, a port that is no number). *)
Class Network : Type := {
  connect_unix : string -> option (list string);
  connect_tcp : string -> string -> option (list string)
}.

(** [":" in path], with [path.split(":", 1)] *)
Fixpoint split_colon (path : string) : option (string * string) :=
  match path with
  | EmptyString => None
  | String c rest =>
      if (N_of_ascii c =? 58)%N then Some (EmptyString, rest)
      else '(host, port) ← split_colon rest; Some (String c host, port)
  end.

Definition Handshake (secret : option string) : pyval :=
  message "Handshake" [(KStr "token", from_option PStr PNone secret)].

(** [try: body except Exception: handler] around a method body that
    returns nothing. *)
Definition try_except (body : M unit) (handler : exn -> M unit) : M unit :=
  fun st => match body st with
            | Raise e st' => handler e st'
            | r => r
            end.

(** [StrategyModule._connect_to_piloteer], lines 17-36. *)
Definition _connect_to_piloteer `{Network} (env : environ) : M unit :=
  let socket_path := default "/tmp/piloteer.sock" (PILOTEER_SOCKET env) in
  let connected :=
    match split_colon socket_path with
    | Some (host, port) => connect_tcp host port
    | None => connect_unix socket_path
    end in
  match connected with
  | Some inb =>
      modify (set_sock (Some (mkSocket inb []))) ;;;
      try_except
        (_send (Handshake (PILOTEER_SECRET env)) ;;; _wait_for_proceed)
        (fun _ => modify (set_sock None))
  | None => modify (set_sock None)
  end.

(** [StrategyModule.__init__], lines 11-15, after the engine's own. *)
Definition __init__ `{Network} (env : environ) : M unit :=
  modify (set_sock None) ;;;
  _connect_to_piloteer env.

(** A network for the examples: the controller listens on the default
    path and on port 7000 of [localhost], and answers with [inb]. *)
Definition sample_network (inb : list string) : Network :=
  {| connect_unix := fun path =>
       if String.eqb path "/tmp/piloteer.sock" then Some inb else None;
     connect_tcp := fun host port =>
       if String.eqb host "localhost" && String.eqb port "7000"
       then Some inb else None |}.

(** A network with no controller on any port: only local sockets
    answer. *)
Definition local_only (inb : list string) : Network :=
  {| connect_unix := fun _ => Some inb;
     connect_tcp := fun _ _ => None |}.

(** A network on which nothing answers. *)
Definition dead_network : Network :=
  {| connect_unix := fun _ => None;
     connect_tcp := fun _ _ => None |}.

(** ** Framing *)

(** [unbroken s]: the text holds no newline. *)
Definition unbroken (s : string) : Prop := split_line s = None.


(** ** Running a play *)

(** The counters of [self._tqm._stats], each a dict from host name to
    count. *)
Record AggregateStats : Type := mkStats {
  stats_ok : list (pykey * pyval);
  stats_failures : list (pykey * pyval);
  stats_changed : list (pykey * pyval);
  stats_skipped : list (pykey * pyval);
  stats_dark : list (pykey * pyval);
  stats_rescued : list (pykey * pyval);
  stats_ignored : list (pykey * pyval)
}.

(** What [run] takes from the engine: the name of the play, the text of
    its host pattern ([str(iterator._play.hosts)]), the run of the linear
    strategy, and the statistics ([None] when [self._tqm] or its [_stats]
    is missing). *)
Class Play : Type := {
  play_get_name : state -> string;
  play_hosts : state -> string;
  linear_run : PlayContext -> M pyval;
  tqm_stats : state -> option AggregateStats
}.

Definition set_play_context (v : PlayContext) (st : state) : state :=
  mkState (sock st) (host_states st) (_failed_hosts st) (_removed_hosts st)
    (failures st) (_blocked_hosts st) (_queued_task_cache st) (extra_vars st)
    v (log st).

Definition PlayStart (name host_pattern : string) : pyval :=
  message "PlayStart" [(KStr "name", PStr name); (KStr "host_pattern", PStr host_pattern)].

Definition PlayRecap (stats : AggregateStats) : pyval :=
  message "PlayRecap"
    [(KStr "stats",
      PDict [(KStr "ok", PDict (stats_ok stats));
             (KStr "failures", PDict (stats_failures stats));
             (KStr "changed", PDict (stats_changed stats));
             (KStr "skipped", PDict (stats_skipped stats));
             (KStr "dark", PDict (stats_dark stats));
             (KStr "rescued", PDict (stats_rescued stats));
             (KStr "ignored", PDict (stats_ignored stats))])].

(** The end of [run], lines 95-109: the recap, then the result. *)
Definition send_recap `{Play} (result : pyval) : M pyval :=
  st <- get ;;
  match tqm_stats st with
  | Some stats => _send (PlayRecap stats)
  | None => ret tt
  end ;;;
  ret result.

(** [StrategyModule.run], lines 76-109. *)
Definition run `{Play} (play_context : PlayContext) : M pyval :=
  modify (set_play_context play_context) ;;;
  st <- get ;;
  _send (PlayStart (play_get_name st) (play_hosts st)) ;;;
  result <- linear_run play_context ;;
  send_recap result.

(** Text that [json] writes between quotes as it is: printable ASCII
    without the quote and the backslash. *)
Definition plain_text (s : string) : bool :=
  forallb (fun c => let b := N_of_ascii c in
                    ((32 <=? b) && (b <=? 126) && negb (b =? 34) && negb (b =? 92))%N)
          (list_ascii_of_string s).

(** A play for the examples: the engine's run returns 0 and changes
    nothing. *)
Definition sample_play (stats : option AggregateStats) : Play :=
  {| play_get_name := fun _ => "deploy";
     play_hosts := fun _ => "web*";
     linear_run := fun _ => ret (PInt 0);
     tqm_stats := fun _ => stats |}.

(** The line of a [PlayStart] whose texts are plain. *)
Definition play_start_line (name host_pattern : string) : string :=
  "{" +:+ jstr "PlayStart" +:+ ": {" +:+ jstr "name" +:+ ": " +:+ jstr name
      +:+ ", " +:+ jstr "host_pattern" +:+ ": " +:+ jstr host_pattern
      +:+ "}}" +:+ newline.

(** A session in which the task of [failed_copy] went out with the
    variable [x] set to ["old"], and the controller answers the failure
    with an override of [x] and a [Retry]. *)
Definition cached_retry : state :=
  mkState (Some (mkSocket [modify_var_line "x" "y"; signal_line "Retry"] []))
    (Some ∅) ∅ [] ∅ ∅
    {[ ("web1", "uuid-1") := mkCached [("x", PStr "old")] (PlayContextRef 5) ]}
    [] (PlayContextRef 0) [].

(** A read that brings a piece of a line: some UTF-8 text, no newline. *)
Definition piece (raw : string) : Prop :=
  String.eqb raw "" = false /\ is_Some (utf8_decode raw) /\ unbroken raw.
(** * Properties *)

(** ** Depth-bounded serialization *)

(** Induction on a payload, with the hypothesis for every item of a dict
    or a list. *)
Lemma pyval_nested_ind (P : pyval -> Prop) :
  P PNone -> (forall b, P (PBool b)) -> (forall z, P (PInt z)) ->
  (forall x, P (PFloat x)) -> (forall s, P (PStr s)) ->
  (forall items, Forall (fun kv => P (snd kv)) items -> P (PDict items)) ->
  (forall items, Forall P items -> P (PList items)) ->
  (forall repr, P (POther repr)) ->
  forall obj, P obj.
Proof.
  intros HN HB HI HF HS HD HL HO.
  fix IH 1. intros [ | b | z | x | s | items | items | repr ].
  - exact HN.
  - apply HB.
  - apply HI.
  - apply HF.
  - apply HS.
  - apply HD. induction items as [ | [k v] items IHitems ]; constructor.
    + apply IH.
    + exact IHitems.
  - apply HL. induction items as [ | v items IHitems ]; constructor.
    + apply IH.
    + exact IHitems.
  - apply HO.
Qed.


Lemma map_pointwise_id {A : Type} (f : A -> A) (l : list A) :
  Forall (fun x => f x = x) l -> map f l = l.
Proof.
  induction 1 as [ | x l Hx _ IHl ]; simpl; congruence.
Qed.

Lemma serialize_safe_beyond (obj : pyval) (depth : nat) :
  5 < depth -> _serialize_safe obj depth = MaxDepth.
Proof.
  intros Hd. apply Nat.ltb_lt in Hd.
  destruct obj; simpl; rewrite Hd; reflexivity.
Qed.

Lemma serialize_safe_within (obj : pyval) (depth : nat) :
  depth <= 5 ->
  _serialize_safe obj depth =
  match obj with
  | PDict items =>
      PDict (map (fun kv => (fst kv, _serialize_safe (snd kv) (S depth))) items)
  | PList items => PList (map (fun v => _serialize_safe v (S depth)) items)
  | POther repr => PStr repr
  | _ => obj
  end.
Proof.
  intros Hd. assert (Hb : (5 <? depth) = false) by (apply Nat.ltb_ge; lia).
  destruct obj; simpl; rewrite Hb; reflexivity.
Qed.

Lemma height_dict_item (k : pykey) (v : pyval) (items : list (pykey * pyval)) :
  In (k, v) items -> S (height v) <= height (PDict items).
Proof.
  simpl. induction items as [ | [k' v'] items IHitems ]; simpl; [ tauto | ].
  intros [ Heq | Hin ].
  - inversion Heq; subst. lia.
  - specialize (IHitems Hin). lia.
Qed.

Lemma height_list_item (v : pyval) (items : list pyval) :
  In v items -> S (height v) <= height (PList items).
Proof.
  simpl. induction items as [ | v' items IHitems ]; simpl; [ tauto | ].
  intros [ Heq | Hin ].
  - subst. lia.
  - specialize (IHitems Hin). lia.
Qed.

(** A payload of scalars, dicts and lists whose levels all lie within the
    bound comes back as it went in. *)
Lemma serialize_safe_shallow (obj : pyval) :
  forall depth, plain obj = true -> height obj + depth <= 6 ->
                _serialize_safe obj depth = obj.
Proof.
  induction obj as [ | b | z | x | s | items IH | items IH | repr ]
    using pyval_nested_ind; intros depth Hplain Hheight;
    try (rewrite serialize_safe_within by (simpl in Hheight; lia); reflexivity).
  - rewrite serialize_safe_within by (simpl in Hheight; lia). f_equal.
    apply map_pointwise_id. rewrite Forall_forall in IH |- *.
    intros [k v] Hin. simpl. f_equal.
    apply list_elem_of_In in Hin.
    apply (IH (k, v)).
    + apply list_elem_of_In; exact Hin.
    + simpl in Hplain. rewrite forallb_forall in Hplain. apply (Hplain (k, v) Hin).
    + pose proof (height_dict_item k v items Hin). simpl in *. lia.
  - rewrite serialize_safe_within by (simpl in Hheight; lia). f_equal.
    apply map_pointwise_id. rewrite Forall_forall in IH |- *.
    intros v Hin. apply list_elem_of_In in Hin.
    apply IH.
    + apply list_elem_of_In; exact Hin.
    + simpl in Hplain. rewrite forallb_forall in Hplain. apply (Hplain v Hin).
    + pose proof (height_list_item v items Hin). simpl in *. lia.
  - discriminate Hplain.
Qed.

Lemma serialize_safe_nested_six (leaf : pyval) :
  _serialize_safe (nested_dict 6 leaf) 0 = nested_dict 6 MaxDepth.
Proof.
  simpl. rewrite (serialize_safe_beyond leaf 6) by lia. reflexivity.
Qed.


(** C6: the transform passes scalars through, recurses into dicts and
    lists down to depth 5, puts the sentinel ["<MaxDepth>"] in the place of
    whatever lies deeper, and turns any other object into its text.  Six
    dicts inside one another keep their six levels (depths 0 to 5) and get
    the sentinel below the last; a payload of scalars, dicts and lists with
    at most six levels, so any with four, comes back unchanged. *)
Theorem serialize_safe_depth_bounded :
  (forall obj depth,
      depth <= 5 -> is_scalar obj = true -> _serialize_safe obj depth = obj) /\
  (forall items depth,
      depth <= 5 ->
      _serialize_safe (PDict items) depth =
      PDict (map (fun kv => (fst kv, _serialize_safe (snd kv) (S depth))) items)) /\
  (forall items depth,
      depth <= 5 ->
      _serialize_safe (PList items) depth =
      PList (map (fun v => _serialize_safe v (S depth)) items)) /\
  (forall obj depth, 5 < depth -> _serialize_safe obj depth = PStr "<MaxDepth>") /\
  (forall repr depth, depth <= 5 -> _serialize_safe (POther repr) depth = PStr repr) /\
  (forall leaf,
      _serialize_safe (nested_dict 6 leaf) 0 = nested_dict 6 (PStr "<MaxDepth>")) /\
  (forall obj, plain obj = true -> height obj <= 6 -> _serialize_safe obj 0 = obj).
Proof.
  repeat split.
  - intros obj depth Hd Hs. rewrite serialize_safe_within by exact Hd.
    destruct obj; try reflexivity; discriminate Hs.
  - intros items depth Hd. apply (serialize_safe_within (PDict items) depth Hd).
  - intros items depth Hd. apply (serialize_safe_within (PList items) depth Hd).
  - intros obj depth Hd. apply serialize_safe_beyond; exact Hd.
  - intros repr depth Hd. apply (serialize_safe_within (POther repr) depth Hd).
  - intros leaf. apply serialize_safe_nested_six.
  - intros obj Hplain Hheight. apply serialize_safe_shallow; [ exact Hplain | lia ].
Qed.

Lemma serialize_safe_depth_bounded_witness :
  plain four_levels = true /\ height four_levels <= 6 /\
  _serialize_safe four_levels 0 = four_levels.
Proof.
  split; [ reflexivity | split; [ simpl; lia | ] ].
  apply (proj2 (proj2 (proj2 (proj2 (proj2 (proj2 serialize_safe_depth_bounded)))))).
  - reflexivity.
  - simpl; lia.
Defined.


(** ** Controller session *)

Lemma error_text_dumps :
  json_dumps (PDict [(KStr "Error", PStr "Serialization Failed")]) = Some error_text.
Proof. vm_compute. reflexivity. Qed.

Lemma send_connected (data : pyval) (st : state) (s : socket) (text : string) :
  sock st = Some s -> json_dumps data = Some text ->
  _send data st =
  Ret tt (set_sock (Some (mkSocket (inbound s) (outbound s ++ [text +:+ newline])))
            (add_event (Emit data) st)).
Proof.
  intros Hs Hd. unfold _send, bind, modify, get, ret. simpl.
  rewrite Hs, Hd. reflexivity.
Qed.

(** C10: on a connected session a message whose JSON encoding raises
    [TypeError] makes [_send] neither raise nor stay silent: it sends the
    one line [{"Error": "Serialization Failed"}] and a newline in its
    place. *)
Theorem send_serialization_failed (data : pyval) (st : state) (s : socket) :
  sock st = Some s -> json_dumps data = None ->
  _send data st =
  Ret tt (set_sock (Some (mkSocket (inbound s) (outbound s ++ [error_line])))
            (add_event (Emit data) st)).
Proof.
  intros Hs Hd. unfold _send, bind, modify, get, ret, raise.
  rewrite error_text_dumps. simpl. rewrite Hs, Hd. reflexivity.
Qed.

Lemma send_serialization_failed_witness :
  json_dumps unencodable = None /\
  _send unencodable (idle (Some (mkSocket [] []))) =
  Ret tt (set_sock (Some (mkSocket [] [error_line]))
            (add_event (Emit unencodable) (idle (Some (mkSocket [] []))))).
Proof.
  split; [ reflexivity | ].
  apply (send_serialization_failed unencodable (idle (Some (mkSocket [] [])))
           (mkSocket [] [])); reflexivity.
Defined.

(** C4: with no live socket every send is a no-op, the wait for [Proceed]
    returns at once and the wait for a command returns at once with
    [Continue]; none of them blocks or raises.  Only the record of the
    calls grows. *)
Theorem degraded_session (st : state) :
  sock st = None ->
  (forall data, _send data st = Ret tt (add_event (Emit data) st)) /\
  _wait_for_proceed st = Ret tt (add_event AwaitProceed st) /\
  _wait_for_command st = Ret ("Continue", PNone) (add_event AwaitCommand st).
Proof.
  intros Hs. repeat split; intros;
    unfold _send, _wait_for_proceed, _wait_for_command, bind, modify, get, ret;
    simpl; rewrite Hs; reflexivity.
Qed.

Lemma degraded_session_witness :
  sock (idle None) = None /\
  _send unencodable (idle None) = Ret tt (add_event (Emit unencodable) (idle None)) /\
  _wait_for_proceed (idle None) = Ret tt (add_event AwaitProceed (idle None)) /\
  _wait_for_command (idle None)
  = Ret ("Continue", PNone) (add_event AwaitCommand (idle None)).
Proof.
  split; [ reflexivity | ].
  destruct (degraded_session (idle None) eq_refl) as (Hsend & Hproceed & Hcommand).
  split; [ apply Hsend | split; [ exact Hproceed | exact Hcommand ] ].
Defined.

(** ** Flow gate *)

(** The peer's close releases the gate. *)
Lemma wait_for_proceed_closed (st : state) (s : socket) (rest : list string) :
  sock st = Some s -> inbound s = "" :: rest ->
  _wait_for_proceed st = Ret tt (consume ("" :: rest) (add_event AwaitProceed st)).
Proof.
  intros Hs Hin. unfold _wait_for_proceed, bind, modify, get, consume. simpl.
  rewrite Hs. unfold on_socket. rewrite Hin. reflexivity.
Qed.

(** A malformed first line is dropped and the loop goes on with the next
    read, the rest of the buffer carried along. *)
Lemma wait_for_proceed_loop_malformed (raw line buffer' : string) (rest : list string) :
  String.eqb raw "" = false -> is_Some (utf8_decode raw) ->
  split_line raw = Some (line, buffer') -> json_loads line = None ->
  wait_for_proceed_loop (raw :: rest) "" = wait_for_proceed_loop rest buffer'.
Proof.
  intros Hne [cps Hdec] Hsplit Hloads.
  cbn [wait_for_proceed_loop]. rewrite Hdec, Hne.
  change ("" +:+ raw) with raw. rewrite Hsplit, Hloads. reflexivity.
Qed.

(** One read whose first line is malformed leaves the gate waiting,
    whatever else the read brought. *)
Lemma wait_for_proceed_lags (raw line buffer' : string) :
  String.eqb raw "" = false -> is_Some (utf8_decode raw) ->
  split_line raw = Some (line, buffer') -> json_loads line = None ->
  wait_for_proceed_loop [raw] "" = Stalled.
Proof.
  intros Hne Hdec Hsplit Hloads.
  rewrite (wait_for_proceed_loop_malformed raw line buffer' [] Hne Hdec Hsplit Hloads).
  reflexivity.
Qed.

(** C3, on the code: a read that brings a malformed line and [Proceed]
    behind it does not release the gate.  One line is taken from the buffer
    per read, so the gate goes back to [recv] with [Proceed] still in the
    buffer and waits.  The same two lines in two reads release it.  Bytes
    that are not UTF-8 end the wait with [UnicodeDecodeError]. *)
Theorem wait_for_proceed_same_read :
  split_line garbage_then_proceed = Some ("garbage", signal_line "Proceed") /\
  json_loads "garbage" = None /\
  json_loads (jstr "Proceed") = Some (PStr "Proceed") /\
  _wait_for_proceed (idle (Some (mkSocket [garbage_then_proceed] [])))
  = Block (add_event AwaitProceed (idle (Some (mkSocket [] [])))) /\
  _wait_for_proceed
    (idle (Some (mkSocket ["garbage" +:+ newline; signal_line "Proceed"] [])))
  = Ret tt (add_event AwaitProceed (idle (Some (mkSocket [] [])))) /\
  _wait_for_proceed (idle (Some (mkSocket [String (ascii_of_N 255) ""] [])))
  = Raise UnicodeDecodeError (add_event AwaitProceed (idle (Some (mkSocket [] [])))).
Proof.
  repeat split; vm_compute; reflexivity.
Qed.

(** ** Waiting for a command *)

Lemma wait_for_command_loop_first (raw line buffer' : string) (msg : pyval)
    (rest : list string) :
  String.eqb raw "" = false -> is_Some (utf8_decode raw) ->
  split_line raw = Some (line, buffer') -> json_loads line = Some msg ->
  wait_for_command_loop (raw :: rest) "" =
  if py_eq_str msg "Retry" then Got ("Retry", PNone) rest
  else match modify_var_payload msg with
       | Some payload => Got ("ModifyVar", payload) rest
       | None =>
           if py_eq_str msg "Continue" then Got ("Continue", PNone) rest
           else if py_eq_str msg "Proceed" then Got ("Continue", PNone) rest
           else wait_for_command_loop rest buffer'
       end.
Proof.
  intros Hne [cps Hdec] Hsplit Hloads.
  cbn [wait_for_command_loop]. rewrite Hdec, Hne.
  change ("" +:+ raw) with raw. rewrite Hsplit, Hloads. reflexivity.
Qed.

Lemma wait_for_command_reads (st : state) (msg : pyval) (rest : list string)
    (cmd : string * pyval) :
  next_message st msg rest ->
  (if py_eq_str msg "Retry" then Some ("Retry", PNone)
   else match modify_var_payload msg with
        | Some payload => Some ("ModifyVar", payload)
        | None =>
            if py_eq_str msg "Continue" then Some ("Continue", PNone)
            else if py_eq_str msg "Proceed" then Some ("Continue", PNone)
            else None
        end) = Some cmd ->
  _wait_for_command st = Ret cmd (consume rest (add_event AwaitCommand st)).
Proof.
  intros (s & Hs & raw & line & buffer' & Hin & Hne & Hdec & Hsplit & Hloads) Hcmd.
  unfold _wait_for_command, bind, modify, get, consume. simpl.
  rewrite Hs. unfold on_socket. rewrite Hin.
  rewrite (wait_for_command_loop_first raw line buffer' msg rest Hne Hdec Hsplit Hloads).
  destruct (py_eq_str msg "Retry");
    [ injection Hcmd as <-; reflexivity | ].
  destruct (modify_var_payload msg);
    [ injection Hcmd as <-; reflexivity | ].
  destruct (py_eq_str msg "Continue");
    [ injection Hcmd as <-; reflexivity | ].
  destruct (py_eq_str msg "Proceed");
    [ injection Hcmd as <-; reflexivity | discriminate Hcmd ].
Qed.

Lemma send_delivers (data : pyval) (st : state) :
  _send data st = Ret tt (deliver data st).
Proof.
  unfold _send, bind, modify, get, ret, raise, deliver, wire, error_line.
  rewrite error_text_dumps. destruct st as [ [ s | ] ? ? ? ? ? ? ? ? ? ]; simpl;
    destruct (json_dumps data); reflexivity.
Qed.

Lemma next_message_deliver (data : pyval) (st : state) (msg : pyval)
    (rest : list string) :
  next_message st msg rest -> next_message (deliver data st) msg rest.
Proof.
  intros (s & Hs & Hfirst). unfold next_message, deliver. simpl. rewrite Hs. simpl.
  eexists. split; [ reflexivity | exact Hfirst ].
Qed.

Lemma next_message_consume (st : state) (inb : list string) (msg : pyval)
    (rest : list string) :
  is_Some (sock st) -> first_line inb msg rest ->
  next_message (consume inb st) msg rest.
Proof.
  intros [s Hs] Hfirst. unfold next_message, consume. rewrite Hs. simpl.
  eexists. split; [ reflexivity | exact Hfirst ].
Qed.

Section Intervention.
Context `{Engine}.
Variables (prev_host_states : gmap string HostState) (res : TaskResult)
          (safe_result : pyval) (cleaned_results : list TaskResult).



Lemma debug_loop_retry (fuel : nat) (st : state) (rest : list string) :
  next_message st (PStr "Retry") rest ->
  debug_loop (S fuel) prev_host_states res safe_result cleaned_results st =
  bind (retry prev_host_states res) (fun _ => ret cleaned_results)
       (consume rest (add_event AwaitCommand st)).
Proof.
  intros Hnext. cbn [debug_loop]. unfold bind at 1.
  rewrite (wait_for_command_reads st (PStr "Retry") rest ("Retry", PNone) Hnext)
    by reflexivity.
  reflexivity.
Qed.

Lemma debug_loop_modify_var (fuel : nat) (st : state) (payload : pyval)
    (msg : pyval) (rest : list string) :
  next_message st msg rest ->
  py_eq_str msg "Retry" = false -> modify_var_payload msg = Some payload ->
  debug_loop (S fuel) prev_host_states res safe_result cleaned_results st =
  bind (modify_var payload)
       (fun _ => debug_loop fuel prev_host_states res safe_result cleaned_results)
       (consume rest (add_event AwaitCommand st)).
Proof.
  intros Hnext Hretry Hpayload. cbn [debug_loop]. unfold bind at 1.
  rewrite (wait_for_command_reads st msg rest ("ModifyVar", payload) Hnext)
    by (rewrite Hretry, Hpayload; reflexivity).
  reflexivity.
Qed.
End Intervention.

(** A tactic for the examples: the first line of the next read. *)
Ltac first_line_by_computation :=
  eexists _, _, _;
  split; [ reflexivity | ];
  split; [ reflexivity | ];
  split; [ eexists; vm_compute; reflexivity | ];
  split; [ vm_compute; reflexivity | vm_compute; reflexivity ].

Ltac next_message_by_computation :=
  eexists; split; [ reflexivity | first_line_by_computation ].

Section ResultProcessing.
Context `{Engine}.
Variables (prev_host_states : gmap string HostState)
          (cleaned_results : list TaskResult).

Lemma process_result_failed (res : TaskResult) (st : state) :
  is_unreachable res = false -> is_failed res = true ->
  let safe_result := _serialize_safe (PDict (_return_data res)) 0 in
  let reported := deliver (TaskFail (task_name res) safe_result) st in
  process_result prev_host_states res cleaned_results st =
  debug_loop (loop_fuel reported) prev_host_states res safe_result
    cleaned_results reported.
Proof.
  intros Hu Hf. unfold process_result. rewrite Hu, Hf.
  unfold bind at 1. rewrite send_delivers. reflexivity.
Qed.


End ResultProcessing.



(** ** Failure intervention: overriding a variable, accepting the failure *)

Lemma modify_var_writes (items : list (pykey * pyval)) (key : string)
    (value : pyval) (st : state) :
  dict_get (KStr "key") items = Some (PStr key) -> key <> "" ->
  dict_get (KStr "value") items = Some value ->
  modify_var (PDict items) st =
  Ret tt (set_extra_vars (dict_set (KStr key) value (extra_vars st)) st).
Proof.
  intros Hkey Hne Hvalue. unfold modify_var. rewrite Hkey, Hvalue. simpl.
  destruct (String.eqb key "") eqn:Heq.
  - apply String.eqb_eq in Heq. contradiction.
  - reflexivity.
Qed.

Lemma modify_var_skips (items : list (pykey * pyval)) (st : state) :
  truthy (default PNone (dict_get (KStr "key") items)) = false ->
  modify_var (PDict items) st = Ret tt st.
Proof.
  intros Hkey. unfold modify_var. rewrite Hkey. reflexivity.
Qed.

Section Override.
Context `{Engine}.
Variables (prev_host_states : gmap string HostState)
          (cleaned_results : list TaskResult).

End Override.



(** ** Rollback on [Retry] *)

Lemma list_remove_NoDup (x : string) (l : list string) :
  NoDup l -> ~ In x (list_remove x l).
Proof.
  induction 1 as [ | y l Hy Hnd IHl ]; simpl; [ tauto | ].
  destruct (String.eqb y x) eqn:Heq.
  - apply String.eqb_eq in Heq. subst y.
    intros Hin. apply Hy. apply list_elem_of_In. exact Hin.
  - apply String.eqb_neq in Heq. simpl. intros [ Habs | Hin ]; [ congruence | tauto ].
Qed.

(** What [retry] does to a state: the five steps in order, then the
    call of [_queue_task]. *)
Lemma retry_effect `{Engine} (prev_host_states : gmap string HostState)
    (res : TaskResult) (st : state) :
  let host := host_name res in
  exists st5 task_vars ctx,
    retry prev_host_states res st =
    Ret tt (add_event (Requeue host (_task res) task_vars ctx) st5) /\
    (task_vars, ctx) =
    match _queued_task_cache st !! (host, _uuid (_task res)) with
    | Some cached => (cached_task_vars cached, cached_play_context cached)
    | None => (get_vars true host (_task res) st5, play_context st)
    end /\
    host_states st5 =
    match prev_host_states !! host with
    | Some position => <[host := position]> <$> host_states st
    | None => host_states st
    end /\
    _failed_hosts st5 = delete host (_failed_hosts st) /\
    _removed_hosts st5 = list_remove host (_removed_hosts st) /\
    failures st5 = decrement host (failures st) /\
    _blocked_hosts st5 = <[host := true]> (_blocked_hosts st) /\
    log st5 = log st.
Proof.
  cbv zeta. unfold retry, _queue_task, bind, modify, get, ret.
  destruct (prev_host_states !! host_name res) as [ position | ]; simpl;
    destruct (_queued_task_cache st !! (host_name res, _uuid (_task res)))
      as [ cached | ];
    eexists _, _, _; (split; [ reflexivity | ]); simpl; repeat split.
Qed.

Lemma awaiting_fields (data : pyval) (rest : list string) (st : state) :
  is_Some (sock st) ->
  let awaiting := consume rest (add_event AwaitCommand (deliver data st)) in
  host_states awaiting = host_states st /\
  _failed_hosts awaiting = _failed_hosts st /\
  _removed_hosts awaiting = _removed_hosts st /\
  failures awaiting = failures st /\
  _blocked_hosts awaiting = _blocked_hosts st /\
  _queued_task_cache awaiting = _queued_task_cache st /\
  play_context awaiting = play_context st /\
  log awaiting = log st ++ [Emit data; AwaitCommand].
Proof.
  intros [s Hs]. cbv zeta. unfold consume, deliver. simpl. rewrite Hs. simpl.
  repeat split. rewrite <- app_assoc. reflexivity.
Qed.

Section Rollback.
Context `{Engine}.

(** C1, as the code has it: a failure answered by [Retry] makes the
    pass, in one go, put the host back at the position the snapshot
    taken at the start of the pass holds for it (when it holds one), take
    the host out of the failed hosts and out of the removed hosts (its
    first entry there), lower the host's failure count by one, SET the
    host's blocked flag, and queue the same task once more, once, with
    the cached variables and play context when the cache has them and
    with freshly resolved variables otherwise.  The result is not
    kept and no terminal message goes out. *)
Theorem retry_rolls_back (max_passes : nat) (one_pass : bool)
    (st0 st1 : state) (res : TaskResult) (rest : list string) :
  linear_process_pending_results max_passes one_pass st0 = ([res], st1) ->
  is_unreachable res = false -> is_failed res = true ->
  next_message st1 (PStr "Retry") rest ->
  let host := host_name res in
  let snapshot := default ∅ (host_states st0) in
  let safe_result := _serialize_safe (PDict (_return_data res)) 0 in
  exists st5 st' task_vars ctx,
    _process_pending_results max_passes one_pass st0 = Ret [] st' /\
    host_states st' =
    match snapshot !! host with
    | Some position => <[host := position]> <$> host_states st1
    | None => host_states st1
    end /\
    _failed_hosts st' = delete host (_failed_hosts st1) /\
    _removed_hosts st' = list_remove host (_removed_hosts st1) /\
    (NoDup (_removed_hosts st1) -> ~ In host (_removed_hosts st')) /\
    failures st' = decrement host (failures st1) /\
    (forall n, failures st1 !! host = Some (S n) -> failures st' !! host = Some n) /\
    _blocked_hosts st' !! host = Some true /\
    (task_vars, ctx) =
    match _queued_task_cache st1 !! (host, _uuid (_task res)) with
    | Some cached => (cached_task_vars cached, cached_play_context cached)
    | None => (get_vars true host (_task res) st5, play_context st1)
    end /\
    st' = add_event (Requeue host (_task res) task_vars ctx) st5 /\
    log st' =
    log st1 ++ [Emit (TaskFail (task_name res) safe_result); AwaitCommand;
                Requeue host (_task res) task_vars ctx].
Proof.
  intros Hpass Hu Hf Hnext. cbv zeta.
  assert (Hsock : is_Some (sock st1)) by (destruct Hnext as (s & -> & _); eauto).
  set (reported := deliver (TaskFail (task_name res)
                              (_serialize_safe (PDict (_return_data res)) 0)) st1).
  set (awaiting := consume rest (add_event AwaitCommand reported)).
  destruct (awaiting_fields
              (TaskFail (task_name res) (_serialize_safe (PDict (_return_data res)) 0))
              rest st1 Hsock)
    as (Hstates & Hfailed & Hremoved & Hfailures & Hblocked & Hcache & Hctx & Hlog).
  fold reported in Hstates, Hfailed, Hremoved, Hfailures, Hblocked, Hcache, Hctx, Hlog.
  fold awaiting in Hstates, Hfailed, Hremoved, Hfailures, Hblocked, Hcache, Hctx, Hlog.
  destruct (retry_effect (default ∅ (host_states st0)) res awaiting)
    as (st5 & task_vars & ctx & Hretry & Hargs & Hstates5 & Hfailed5 & Hremoved5
        & Hfailures5 & Hblocked5 & Hlog5).
  exists st5, (add_event (Requeue (host_name res) (_task res) task_vars ctx) st5),
    task_vars, ctx.
  split.
  - unfold _process_pending_results, get. unfold bind at 1. unfold bind at 1.
    rewrite Hpass. cbn [process_results]. unfold bind at 1.
    rewrite (process_result_failed _ _ res st1 Hu Hf). cbv zeta.
    unfold loop_fuel. fold reported.
    rewrite (debug_loop_retry _ _ _ _ _ reported rest
               (next_message_deliver _ _ _ _ Hnext)).
    fold awaiting. unfold bind. rewrite Hretry. reflexivity.
  - rewrite Hcache, Hctx in Hargs. simpl.
    rewrite Hstates5, Hfailed5, Hremoved5, Hfailures5, Hblocked5, Hlog5.
    rewrite Hstates, Hfailed, Hremoved, Hfailures, Hblocked, Hlog.
    repeat split.
    + apply list_remove_NoDup.
    + intros n Hn. unfold decrement. rewrite lookup_insert_eq, Hn. reflexivity.
    + apply lookup_insert_eq.
    + exact Hargs.
    + rewrite <- app_assoc. reflexivity.
Qed.
End Rollback.

Lemma retry_rolls_back_witness :
  let H := sample_engine [failed_copy] [] [("inventory_hostname", PStr "web1")] in
  let st1 := record_failure failed_copy before_pass in
  linear_process_pending_results 1 false before_pass = ([failed_copy], st1) /\
  next_message st1 (PStr "Retry") [] /\
  exists st',
    _process_pending_results 1 false before_pass = Ret [] st' /\
    host_states st' = (<["web1" := HostStateRef 7]> <$> host_states st1) /\
    _failed_hosts st' !! "web1" = None /\
    ~ In "web1" (_removed_hosts st') /\
    failures st' !! "web1" = Some 0 /\
    _blocked_hosts st' !! "web1" = Some true.
Proof.
  cbv zeta.
  assert (Hnext : next_message (record_failure failed_copy before_pass) (PStr "Retry") [])
    by next_message_by_computation.
  split; [ reflexivity | split; [ exact Hnext | ] ].
  destruct (retry_rolls_back
              (H := sample_engine [failed_copy] [] [("inventory_hostname", PStr "web1")])
              1 false before_pass (record_failure failed_copy before_pass)
              failed_copy [] eq_refl eq_refl eq_refl Hnext)
    as (st5 & st' & task_vars & ctx & Hrun & Hstates & Hfailed & Hremoved & Hactive
        & _ & Hcount & Hblocked & _).
  exists st'. split; [ exact Hrun | ].
  split; [ exact Hstates | ].
  split; [ rewrite Hfailed; apply lookup_delete_eq | ].
  split; [ apply Hactive; vm_compute; repeat constructor; intros Habs; inversion Habs | ].
  split; [ apply Hcount; reflexivity | exact Hblocked ].
Defined.

(** C1, as stated, fails on the blocked flag: the [Retry] branch does not
    clear it, it sets it.  Here the flag of [web1] is not set before the
    pass and is set after the rollback. *)
Lemma retry_sets_blocked_counterexample :
  let H := sample_engine [failed_copy] [] [("inventory_hostname", PStr "web1")] in
  _blocked_hosts before_pass !! "web1" = None /\
  exists st',
    _process_pending_results 1 false before_pass = Ret [] st' /\
    _blocked_hosts st' !! "web1" = Some true.
Proof.
  cbv zeta. split; [ reflexivity | ].
  eexists. split; [ vm_compute; reflexivity | vm_compute; reflexivity ].
Qed.

(** ** Event emitter: variable filtering and the pre-dispatch hook *)








Section PreDispatch.
Context `{Engine}.

End PreDispatch.



(** ** The loop budget is never used up

    A turn of the intervention loop that stays in the loop has taken a
    read off the socket, so the budget [loop_fuel] gives is enough: the
    outcome [OutOfFuel] does not occur. *)

Lemma wait_for_command_loop_progress (inb : list string) :
  forall buffer cmd rest,
    wait_for_command_loop inb buffer = Got cmd rest ->
    (fst cmd = "Retry" \/ fst cmd = "Continue") \/
    (fst cmd = "ModifyVar" /\ length rest < length inb).
Proof.
  induction inb as [ | raw inb IH ]; intros buffer cmd rest; simpl; [ discriminate | ].
  destruct (utf8_decode raw); [ | discriminate ].
  destruct (String.eqb raw ""); [ intros [= <- _]; tauto | ].
  assert (Hrec : forall b, wait_for_command_loop inb b = Got cmd rest ->
                           (fst cmd = "Retry" \/ fst cmd = "Continue") \/
                           (fst cmd = "ModifyVar" /\ length rest < S (length inb))).
  { intros b Hb. destruct (IH b cmd rest Hb) as [ ? | [? ?] ]; [ tauto | right; split; [ assumption | lia ] ]. }
  destruct (split_line (buffer +:+ raw)) as [ [line buffer'] | ]; [ | apply Hrec ].
  destruct (json_loads line) as [ msg | ]; [ | apply Hrec ].
  destruct (py_eq_str msg "Retry"); [ intros [= <- _]; tauto | ].
  destruct (modify_var_payload msg);
    [ intros [= <- <-]; right; split; [ reflexivity | lia ] | ].
  destruct (py_eq_str msg "Continue"); [ intros [= <- _]; tauto | ].
  destruct (py_eq_str msg "Proceed"); [ intros [= <- _]; tauto | apply Hrec ].
Qed.

Lemma wait_for_command_progress (st : state) :
  match _wait_for_command st with
  | Ret cmd st' =>
      (fst cmd = "Retry" \/ fst cmd = "Continue") \/
      (fst cmd = "ModifyVar" /\ pending st' < pending st)
  | OutOfFuel => False
  | _ => True
  end.
Proof.
  unfold _wait_for_command, bind, modify, get, ret, pending. simpl.
  destruct (sock st) as [ s | ] eqn:Hs; [ | tauto ].
  unfold on_socket.
  destruct (wait_for_command_loop (inbound s) "") as [ cmd rest | | rest ] eqn:Hloop;
    [ | exact I | exact I ].
  simpl. exact (wait_for_command_loop_progress _ _ _ _ Hloop).
Qed.

Lemma modify_var_pending (cmd_data : pyval) (st : state) :
  match modify_var cmd_data st with
  | Ret _ st' => pending st' = pending st
  | OutOfFuel => False
  | _ => True
  end.
Proof.
  unfold modify_var, modify, ret, raise.
  destruct cmd_data; try exact I.
  destruct (truthy _); [ | reflexivity ].
  destruct (hashable _); [ reflexivity | exact I ].
Qed.

Lemma debug_loop_fuel `{Engine} (prev_host_states : gmap string HostState)
    (res : TaskResult) (safe_result : pyval) (cleaned_results : list TaskResult)
    (fuel : nat) :
  forall st, pending st < fuel ->
             debug_loop fuel prev_host_states res safe_result cleaned_results st
             <> OutOfFuel.
Proof.
  induction fuel as [ | fuel IH ]; intros st Hfuel; [ lia | ].
  cbn [debug_loop]. unfold bind at 1.
  pose proof (wait_for_command_progress st) as Hwait.
  destruct (_wait_for_command st) as [ [cmd_type cmd_data] st' | | | ];
    [ | discriminate | discriminate | contradiction ].
  simpl in Hwait. destruct Hwait as [ [ -> | -> ] | [ -> Hless ] ].
  - change (String.eqb "Retry" "Retry") with true. cbv iota.
    destruct (retry_effect prev_host_states res st') as (st5 & ? & ? & Hretry & _).
    unfold bind. rewrite Hretry. discriminate.
  - change (String.eqb "Continue" "Retry") with false.
    change (String.eqb "Continue" "ModifyVar") with false.
    change (String.eqb "Continue" "Continue") with true. cbv iota.
    unfold bind. rewrite send_delivers. discriminate.
  - change (String.eqb "ModifyVar" "Retry") with false.
    change (String.eqb "ModifyVar" "ModifyVar") with true. cbv iota.
    unfold bind at 1.
    pose proof (modify_var_pending cmd_data st') as Hmod.
    destruct (modify_var cmd_data st') as [ [] st'' | | | ];
      [ | discriminate | discriminate | contradiction ].
    apply IH. lia.
Qed.

(** The body of the pass returns, waits for the controller or raises; it
    does not run out of budget. *)
Lemma process_result_fuel `{Engine} (prev_host_states : gmap string HostState)
    (res : TaskResult) (cleaned_results : list TaskResult) (st : state) :
  process_result prev_host_states res cleaned_results st <> OutOfFuel.
Proof.
  unfold process_result.
  destruct (is_unreachable res); [ unfold bind; rewrite send_delivers; discriminate | ].
  destruct (is_failed res); [ | unfold bind; rewrite send_delivers; discriminate ].
  unfold bind at 1. rewrite send_delivers. unfold bind, get.
  apply debug_loop_fuel. unfold loop_fuel, pending. lia.
Qed.

(** * Further properties of the code *)

(** ** The serializer as a function on payloads *)

Lemma serialize_safe_idempotent_at (obj : pyval) :
  forall depth,
    _serialize_safe (_serialize_safe obj depth) depth = _serialize_safe obj depth.
Proof.
  induction obj as [ | b | z | x | s | items IH | items IH | repr ]
    using pyval_nested_ind; intros depth;
    (destruct (le_lt_dec depth 5) as [ Hd | Hd ];
     [ | rewrite !serialize_safe_beyond by exact Hd; reflexivity ]);
    rewrite (serialize_safe_within _ depth Hd);
    try (rewrite (serialize_safe_within _ depth Hd); reflexivity).
  - rewrite (serialize_safe_within _ depth Hd). f_equal.
    rewrite map_map. apply map_ext_Forall.
    eapply Forall_impl; [ exact IH | ].
    intros [k v] Hv. simpl in *. rewrite Hv. reflexivity.
  - rewrite (serialize_safe_within _ depth Hd). f_equal.
    rewrite map_map. apply map_ext_Forall.
    eapply Forall_impl; [ exact IH | ].
    intros v Hv. simpl in *. apply Hv.
Qed.

(** X1: serializing a serialized payload changes nothing. *)
Theorem serialize_safe_idempotent (obj : pyval) :
  _serialize_safe (_serialize_safe obj 0) 0 = _serialize_safe obj 0.
Proof. apply serialize_safe_idempotent_at. Qed.






(** The encoding of a message follows that of its fields. *)
Lemma json_dumps_message (tag : string) (fields : list (pykey * pyval)) :
  json_dumps (message tag fields) =
  match json_dumps (PDict fields) with
  | Some text =>
      Some ("{" +:+ String.concat ", " [encode_basestring_ascii tag +:+ ": " +:+ text]
                +:+ "}")
  | None => None
  end.
Proof.
  unfold message. remember (PDict fields) as inner eqn:Hinner.
  cbn [json_dumps mapM fst snd json_dumps_key]. clear Hinner.
  destruct (json_dumps inner); reflexivity.
Qed.

Lemma json_dumps_fields_cons (k : string) (v : pyval) (fields : list (pykey * pyval)) :
  is_Some (json_dumps v) -> is_Some (json_dumps (PDict fields)) ->
  is_Some (json_dumps (PDict ((KStr k, v) :: fields))).
Proof.
  intros [ vt Hv ] [ ft Hf ]. cbn [json_dumps] in Hf |- *.
  cbn [mapM fst snd json_dumps_key]. rewrite Hv.
  destruct (mapM _ fields) as [ parts | ]; [ | discriminate Hf ].
  eexists; reflexivity.
Qed.

Lemma json_dumps_fields_nil : is_Some (json_dumps (PDict [])).
Proof. eexists; reflexivity. Qed.

Lemma json_dumps_scalar (obj : pyval) :
  is_scalar obj = true -> is_Some (json_dumps obj).
Proof.
  destruct obj as [ | [ | ] | | | | | | ]; try discriminate; intros _;
    eexists; reflexivity.
Qed.



Lemma json_dumps_fields_none (k : pykey) (v : pyval) (fields : list (pykey * pyval)) :
  In (k, v) fields -> json_dumps v = None -> json_dumps (PDict fields) = None.
Proof.
  intros Hin Hnone. cbn [json_dumps].
  destruct (mapM _ fields) as [ parts | ] eqn:Hparts; [ | reflexivity ].
  assert (Hsome : is_Some (mapM (fun kv => k0 ← json_dumps_key (fst kv);
                                           v0 ← json_dumps (snd kv);
                                           Some (k0 +:+ ": " +:+ v0)) fields))
    by (rewrite Hparts; eauto).
  apply mapM_is_Some in Hsome. rewrite Forall_forall in Hsome.
  destruct (Hsome (k, v) (proj2 (list_elem_of_In _ _) Hin)) as [ x Hx ].
  simpl in Hx. rewrite Hnone in Hx.
  destruct (json_dumps_key k); discriminate Hx.
Qed.

(** X4: the [error] field of [TaskUnreachable] is the [msg] of the result
    as it is, not its serialized form.  When [json] cannot encode that
    [msg], the controller gets the fallback line in place of the notice;
    the result is kept all the same. *)
Theorem unreachable_notice_raw_msg `{Engine}
    (prev_host_states : gmap string HostState) (cleaned_results : list TaskResult)
    (res : TaskResult) (st : state) (s : socket) (msg : pyval) :
  is_unreachable res = true -> sock st = Some s ->
  dict_get (KStr "msg") (_return_data res) = Some msg -> json_dumps msg = None ->
  exists st',
    process_result prev_host_states res cleaned_results st =
    Ret (cleaned_results ++ [res]) st' /\
    sock st' = Some (mkSocket (inbound s) (outbound s ++ [error_line])).
Proof.
  intros Hu Hs Hmsg Hnone. unfold process_result. rewrite Hu, Hmsg.
  unfold bind. rewrite send_delivers. eexists. split; [ reflexivity | ].
  unfold deliver, wire, TaskUnreachable. simpl default.
  rewrite json_dumps_message.
  rewrite (json_dumps_fields_none (KStr "error") msg) by (simpl; tauto || exact Hnone).
  simpl. rewrite Hs. reflexivity.
Qed.

Lemma unreachable_notice_raw_msg_witness :
  let H := sample_engine [] [] [] in
  exists st',
    process_result ∅ unreachable_bytes [] (connected []) = Ret [unreachable_bytes] st' /\
    sock st' = Some (mkSocket [] [error_line]).
Proof.
  cbv zeta.
  exact (unreachable_notice_raw_msg (H := sample_engine [] [] []) ∅ [] unreachable_bytes
           (connected []) (mkSocket [] []) (POther "b'No route to host'")
           eq_refl eq_refl eq_refl eq_refl).
Defined.

(** ** The filtered variables *)

Lemma dict_set_Forall {V : Type} (P : pykey * V -> Prop) (k : pykey) (v : V)
    (d : list (pykey * V)) :
  Forall P d -> P (k, v) -> Forall P (dict_set k v d).
Proof.
  intros Hd Hkv. induction Hd as [ | [k' v'] d Hx Hd IHd ]; simpl.
  - constructor; [ exact Hkv | constructor ].
  - destruct (decide (k' = k)) as [ -> | Hne ]; constructor; assumption.
Qed.

Lemma filter_step_sendable (acc : list (pykey * pyval)) (kv : string * pyval) :
  Forall sendable acc -> Forall sendable (filter_step acc kv).
Proof.
  intros Hacc. destruct kv as [k v]. simpl.
  destruct (String.prefix "ansible_" k); [ exact Hacc | ].
  destruct (json_dumps v) as [ text | ] eqn:Hv; apply dict_set_Forall; try exact Hacc.
  - split; [ eexists; reflexivity | simpl; rewrite Hv; eauto ].
  - split; [ eexists; reflexivity | eexists; reflexivity ].
Qed.

Lemma filter_vars_sendable (task_vars : vars) : Forall sendable (filter_vars task_vars).
Proof.
  unfold filter_vars.
  assert (Hgen : forall acc, Forall sendable acc ->
                             Forall sendable (fold_left filter_step task_vars acc)).
  { induction task_vars as [ | kv l IHl ]; intros acc Hacc; simpl; [ exact Hacc | ].
    apply IHl. apply filter_step_sendable. exact Hacc. }
  apply Hgen. constructor.
Qed.

Lemma json_dumps_sendable (fields : list (pykey * pyval)) :
  Forall sendable fields -> is_Some (json_dumps (PDict fields)).
Proof.
  intros Hfields. cbn [json_dumps].
  assert (Hparts : is_Some (mapM (fun kv => k ← json_dumps_key (fst kv);
                                            v ← json_dumps (snd kv);
                                            Some (k +:+ ": " +:+ v)) fields)).
  { apply mapM_is_Some. eapply Forall_impl; [ exact Hfields | ].
    intros [k v] [ [s Hk] [vt Hv] ]. simpl in *. subst k. rewrite Hv.
    eexists; reflexivity. }
  destruct Hparts as [ parts -> ]. eexists; reflexivity.
Qed.

(** X5: whatever the variables of the host are, the [TaskStart] built
    from the filtered ones encodes: the pre-dispatch hook never has the
    fallback line sent. *)
Theorem task_start_encodes (name : string) (task_vars : vars) :
  is_Some (json_dumps (TaskStart name (filter_vars task_vars))).
Proof.
  unfold TaskStart. rewrite json_dumps_message.
  destruct (json_dumps_fields_cons "name" (PStr name) _
              (json_dumps_scalar (PStr name) eq_refl)
              (json_dumps_fields_cons "task_vars" _ _
                 (json_dumps_sendable _ (filter_vars_sendable task_vars))
                 json_dumps_fields_nil)) as [ text -> ].
  eexists; reflexivity.
Qed.

Lemma dict_set_fresh_keys {V : Type} (k : pykey) (v : V) (d : list (pykey * V)) :
  ~ In k (map fst d) -> map fst (dict_set k v d) = map fst d ++ [k].
Proof.
  induction d as [ | [k' v'] d IHd ]; simpl; intros Hfresh; [ reflexivity | ].
  destruct (decide (k' = k)) as [ -> | Hne ]; [ tauto | ].
  simpl. rewrite IHd by tauto. reflexivity.
Qed.

Lemma filter_fold_order (l : vars) :
  forall acc,
    List.NoDup (map fst l) ->
    (forall k, In k (map fst l) -> ~ In (KStr k) (map fst acc)) ->
    map fst (fold_left filter_step l acc) =
    map fst acc ++
    map KStr (List.filter (fun k => negb (String.prefix "ansible_" k)) (map fst l)).
Proof.
  induction l as [ | [k v] l IHl ]; intros acc Hnd Hfresh; simpl.
  - rewrite app_nil_r. reflexivity.
  - inversion Hnd as [ | ? ? Hk Hnd' ]; subst.
    destruct (String.prefix "ansible_" k) eqn:Hprefix; simpl.
    + apply IHl; [ exact Hnd' | ]. intros k' Hin. apply Hfresh. right. exact Hin.
    + assert (Hkeys : forall x, map fst (dict_set (KStr k) x acc)
                                = map fst acc ++ [KStr k]).
      { intros x. apply dict_set_fresh_keys. apply Hfresh. left. reflexivity. }
      assert (Hstep : forall x,
                 map fst (fold_left filter_step l (dict_set (KStr k) x acc)) =
                 map fst acc ++
                 KStr k :: map KStr (List.filter
                                       (fun k0 => negb (String.prefix "ansible_" k0))
                                       (map fst l))).
      { intros x. rewrite IHl; [ rewrite Hkeys, <- app_assoc; reflexivity
                               | exact Hnd' | ].
        intros k' Hin. rewrite Hkeys. intros Hin'.
        apply in_app_or in Hin' as [ Hin' | [ Heq | [] ] ].
        - apply (Hfresh k'); [ right; exact Hin | exact Hin' ].
        - injection Heq as ->. apply Hk. exact Hin. }
      destruct (json_dumps v); apply Hstep.
Qed.

(** X6: when no name occurs twice, the filtered variables are the names
    without the reserved prefix, in the order the variables came in. *)
Theorem filter_vars_keeps_order (task_vars : vars) :
  List.NoDup (map fst task_vars) ->
  map fst (filter_vars task_vars) =
  map KStr (List.filter (fun k => negb (String.prefix "ansible_" k))
              (map fst task_vars)).
Proof.
  intros Hnd. unfold filter_vars.
  rewrite (filter_fold_order task_vars [] Hnd); [ reflexivity | ].
  intros k _ [].
Qed.

Lemma filter_vars_keeps_order_witness :
  List.NoDup (map fst sample_vars) /\
  map fst (filter_vars sample_vars) = [KStr "app_port"; KStr "handle"].
Proof.
  assert (Hnd : List.NoDup (map fst sample_vars)).
  { simpl. repeat constructor; simpl; intros Hin;
      repeat (destruct Hin as [ Hin | Hin ]; [ discriminate Hin | ]); exact Hin. }
  split; [ exact Hnd | ].
  exact (filter_vars_keeps_order sample_vars Hnd).
Defined.

(** ** The two waits on any stream of reads *)











(** ** A pass cannot hang on a peer that closes *)









(** ** Every result is kept or queued again *)

Lemma requeues_app (l1 l2 : list event) :
  requeues (l1 ++ l2) = requeues l1 + requeues l2.
Proof.
  induction l1 as [ | [ | | | ] l1 IH ]; simpl; lia.
Qed.

Lemma wait_for_command_frame (st : state) (cmd : string * pyval) (st' : state) :
  _wait_for_command st = Ret cmd st' ->
  bookkeeping st' = bookkeeping st /\ log st' = log st ++ [AwaitCommand].
Proof.
  unfold _wait_for_command, bind, modify, get, ret. simpl.
  destruct (sock st) as [ s | ].
  - unfold on_socket. destruct (wait_for_command_loop _ _); intros [= _ <-] || discriminate.
    split; reflexivity.
  - intros [= _ <-]. split; reflexivity.
Qed.

Lemma modify_var_frame (cmd_data : pyval) (st st' : state) :
  modify_var cmd_data st = Ret tt st' ->
  bookkeeping st' = bookkeeping st /\ log st' = log st.
Proof.
  unfold modify_var, modify, ret, raise.
  destruct cmd_data; try discriminate.
  destruct (truthy _); [ | intros [= <-]; split; reflexivity ].
  destruct (hashable _); [ intros [= <-]; split; reflexivity | discriminate ].
Qed.

Lemma deliver_frame (data : pyval) (st : state) :
  bookkeeping (deliver data st) = bookkeeping st /\
  requeues (log (deliver data st)) = requeues (log st).
Proof.
  split; [ reflexivity | ]. unfold deliver. simpl. rewrite requeues_app. simpl. lia.
Qed.

Lemma debug_loop_dropped_or_kept `{Engine} (prev_host_states : gmap string HostState)
    (res : TaskResult) (safe_result : pyval) (cleaned_results : list TaskResult)
    (fuel : nat) :
  forall st out st',
    debug_loop fuel prev_host_states res safe_result cleaned_results st = Ret out st' ->
    dropped_or_kept cleaned_results res st out st'.
Proof.
  induction fuel as [ | fuel IH ]; intros st out st'; [ discriminate | ].
  cbn [debug_loop]. unfold bind at 1.
  destruct (_wait_for_command st) as [ [cmd_type cmd_data] st1 | | | ] eqn:Hwait;
    try discriminate.
  destruct (wait_for_command_frame _ _ _ Hwait) as [ Hbook1 Hlog1 ].
  assert (Hreq1 : requeues (log st1) = requeues (log st))
    by (rewrite Hlog1, requeues_app; simpl; lia).
  destruct (String.eqb cmd_type "Retry").
  - destruct (retry_effect prev_host_states res st1)
      as (st5 & task_vars & ctx & Hretry & _ & _ & _ & _ & _ & _ & Hlog5).
    unfold bind. rewrite Hretry. intros [= <- <-]. left. split; [ reflexivity | ].
    simpl. rewrite requeues_app, Hlog5, Hreq1. simpl. lia.
  - destruct (String.eqb cmd_type "ModifyVar").
    + unfold bind at 1.
      destruct (modify_var cmd_data st1) as [ [] st2 | | | ] eqn:Hmod; try discriminate.
      destruct (modify_var_frame _ _ _ Hmod) as [ Hbook2 Hlog2 ].
      intros Hrest. destruct (IH _ _ _ Hrest) as [ [ -> Hreq ] | ( -> & Hreq & Hbook ) ].
      * left. split; [ reflexivity | ]. rewrite Hreq, Hlog2, Hreq1. reflexivity.
      * right. split; [ reflexivity | ]. split.
        -- rewrite Hreq, Hlog2, Hreq1. reflexivity.
        -- rewrite Hbook, Hbook2, Hbook1. reflexivity.
    + destruct (String.eqb cmd_type "Continue").
      * unfold bind. rewrite send_delivers. intros [= <- <-]. right.
        split; [ reflexivity | ].
        destruct (deliver_frame
                    (TaskResultMsg (task_name res) (host_name res) false true safe_result)
                    st1) as [ Hbook Hreq ].
        split; [ rewrite Hreq, Hreq1; reflexivity | rewrite Hbook, Hbook1; reflexivity ].
      * intros Hrest. destruct (IH _ _ _ Hrest) as [ [ -> Hreq ] | ( -> & Hreq & Hbook ) ].
        -- left. split; [ reflexivity | ]. rewrite Hreq, Hreq1. reflexivity.
        -- right. split; [ reflexivity | ]. split.
           ++ rewrite Hreq, Hreq1. reflexivity.
           ++ rewrite Hbook, Hbook1. reflexivity.
Qed.

Lemma process_result_dropped_or_kept `{Engine}
    (prev_host_states : gmap string HostState) (res : TaskResult)
    (cleaned_results : list TaskResult) (st : state) (out : list TaskResult)
    (st' : state) :
  process_result prev_host_states res cleaned_results st = Ret out st' ->
  dropped_or_kept cleaned_results res st out st'.
Proof.
  unfold process_result.
  destruct (is_unreachable res).
  { unfold bind. rewrite send_delivers. intros [= <- <-]. right.
    split; [ reflexivity | ]. destruct (deliver_frame
      (TaskUnreachable (get_name (_task res)) (host_name res)
         (default (PStr "Host unreachable") (dict_get (KStr "msg") (_return_data res)))
         (_serialize_safe (PDict (_return_data res)) 0)) st) as [ Hb Hr ].
    split; assumption. }
  destruct (is_failed res).
  - unfold bind at 1. rewrite send_delivers. unfold bind, get. intros Hloop.
    destruct (deliver_frame
                (TaskFail (task_name res) (_serialize_safe (PDict (_return_data res)) 0))
                st) as [ Hb Hr ].
    destruct (debug_loop_dropped_or_kept _ _ _ _ _ _ _ _ Hloop)
      as [ [ -> Hreq ] | ( -> & Hreq & Hbook ) ].
    + left. split; [ reflexivity | ]. rewrite Hreq, Hr. reflexivity.
    + right. split; [ reflexivity | ]. split.
      * rewrite Hreq, Hr. reflexivity.
      * rewrite Hbook, Hb. reflexivity.
  - unfold bind. rewrite send_delivers. intros [= <- <-]. right.
    split; [ reflexivity | ]. destruct (deliver_frame
      (TaskResultMsg (task_name res) (host_name res) (is_changed res) false
         (_serialize_safe (PDict (_return_data res)) 0)) st) as [ Hb Hr ].
    split; assumption.
Qed.

Lemma process_results_account `{Engine} (prev_host_states : gmap string HostState)
    (results : list TaskResult) :
  forall cleaned_results st out st',
    process_results prev_host_states results cleaned_results st = Ret out st' ->
    exists kept,
      out = cleaned_results ++ kept /\ sublist kept results /\
      length kept + requeues (log st') = length results + requeues (log st) /\
      (length kept = length results ->
       kept = results /\ bookkeeping st' = bookkeeping st).
Proof.
  induction results as [ | res results IH ]; intros cleaned_results st out st'.
  - intros [= <- <-]. exists []. rewrite app_nil_r.
    repeat split; constructor.
  - cbn [process_results]. unfold bind.
    destruct (process_result prev_host_states res cleaned_results st)
      as [ cleaned1 st1 | | | ] eqn:Hone; try discriminate.
    intros Hrest.
    destruct (IH _ _ _ _ Hrest) as (kept & -> & Hsub & Hlen & Hall).
    pose proof (sublist_length _ _ Hsub) as Hle.
    destruct (process_result_dropped_or_kept _ _ _ _ _ _ Hone)
      as [ [ -> Hreq ] | ( -> & Hreq & Hbook ) ].
    + exists kept. split; [ reflexivity | ].
      split; [ apply sublist_cons; exact Hsub | ].
      split; [ simpl; lia | simpl; lia ].
    + exists (res :: kept). split; [ rewrite <- app_assoc; reflexivity | ].
      split; [ apply sublist_skip; exact Hsub | ].
      split; [ simpl; lia | ].
      simpl. intros Hfull. destruct Hall as [ -> Hbook' ]; [ lia | ].
      split; [ reflexivity | rewrite Hbook', Hbook; reflexivity ].
Qed.

(** X11: when the processing of the results of a pass returns, every
    result was either kept, in its place, or dropped and its task queued
    again: what is returned is a sublist of the results, and the results
    left out are as many as the [_queue_task] calls made. *)
Theorem pass_keeps_or_requeues `{Engine} (prev_host_states : gmap string HostState)
    (results : list TaskResult) (st : state) (out : list TaskResult) (st' : state) :
  process_results prev_host_states results [] st = Ret out st' ->
  sublist out results /\
  length out + requeues (log st') = length results + requeues (log st).
Proof.
  intros Hrun.
  destruct (process_results_account _ _ _ _ _ _ Hrun) as (kept & -> & Hsub & Hlen & _).
  split; [ exact Hsub | exact Hlen ].
Qed.

(** X12: a pass in which no task was queued again keeps every result and
    leaves the engine's bookkeeping (host positions, failed and removed
    hosts, failure counts, blocked flags) as it found it: reporting, and
    accepting a failure with [Continue], do not touch it. *)
Theorem pass_without_retry_is_read_only `{Engine}
    (prev_host_states : gmap string HostState) (results : list TaskResult)
    (st : state) (out : list TaskResult) (st' : state) :
  process_results prev_host_states results [] st = Ret out st' ->
  requeues (log st') = requeues (log st) ->
  out = results /\ bookkeeping st' = bookkeeping st.
Proof.
  intros Hrun Hnone.
  destruct (process_results_account _ _ _ _ _ _ Hrun) as (kept & -> & _ & Hlen & Hall).
  simpl. apply Hall. lia.
Qed.

Lemma pass_keeps_or_requeues_witness :
  let H := sample_engine [] [] [] in
  let st := connected [signal_line "Retry"] in
  exists out st',
    process_results ∅ [failed_copy; unreachable_ping] [] st = Ret out st' /\
    sublist out [failed_copy; unreachable_ping] /\
    length out + requeues (log st') = 2 + requeues (log st).
Proof.
  cbv zeta.
  destruct (process_results (H := sample_engine [] [] []) ∅
              [failed_copy; unreachable_ping] [] (connected [signal_line "Retry"]))
    as [ out st' | | | ] eqn:Hrun;
    [ | vm_compute in Hrun; discriminate Hrun .. ].
  exists out, st'. split; [ reflexivity | ].
  exact (pass_keeps_or_requeues (H := sample_engine [] [] []) ∅ _ _ _ _ Hrun).
Defined.

Lemma pass_without_retry_is_read_only_witness :
  let H := sample_engine [] [] [] in
  let st := connected [signal_line "Continue"] in
  exists out st',
    process_results ∅ [failed_copy; unreachable_ping] [] st = Ret out st' /\
    out = [failed_copy; unreachable_ping] /\ bookkeeping st' = bookkeeping st.
Proof.
  cbv zeta.
  destruct (process_results (H := sample_engine [] [] []) ∅
              [failed_copy; unreachable_ping] [] (connected [signal_line "Continue"]))
    as [ out st' | | | ] eqn:Hrun;
    [ | vm_compute in Hrun; discriminate Hrun .. ].
  exists out, st'. split; [ reflexivity | ].
  apply (pass_without_retry_is_read_only (H := sample_engine [] [] []) ∅ _ _ _ _ Hrun).
  pose proof Hrun as Hrun'. vm_compute in Hrun'. injection Hrun' as _ <-. reflexivity.
Defined.

(** ** Passes that need no controller *)

Lemma process_result_report `{Engine} (prev_host_states : gmap string HostState)
    (res : TaskResult) (cleaned_results : list TaskResult) (st : state) :
  no_intervention res ->
  process_result prev_host_states res cleaned_results st =
  Ret (cleaned_results ++ [res]) (deliver (report res) st).
Proof.
  intros Hres. unfold no_intervention in Hres. unfold process_result, report.
  destruct (is_unreachable res);
    [ unfold bind; rewrite send_delivers; reflexivity | ].
  destruct Hres as [ Habs | -> ]; [ discriminate Habs | ].
  unfold bind. rewrite send_delivers. reflexivity.
Qed.

(** X13: a pass whose results are all successes or unreachable hosts
    keeps every result, reports each with one message, in the order of the
    results, reads nothing from the socket and leaves the engine's
    bookkeeping alone. *)
Theorem pass_without_failures `{Engine} (prev_host_states : gmap string HostState)
    (results : list TaskResult) :
  forall cleaned_results st,
    Forall no_intervention results ->
    exists st',
      process_results prev_host_states results cleaned_results st =
      Ret (cleaned_results ++ results) st' /\
      log st' = log st ++ map (fun res => Emit (report res)) results /\
      inbound <$> sock st' = inbound <$> sock st /\
      bookkeeping st' = bookkeeping st.
Proof.
  induction results as [ | res results IH ]; intros cleaned_results st Hall.
  - exists st. rewrite !app_nil_r. repeat split.
  - apply Forall_cons in Hall as [ Hres Hall ].
    cbn [process_results]. unfold bind.
    rewrite (process_result_report _ _ _ _ Hres).
    destruct (IH (cleaned_results ++ [res]) (deliver (report res) st) Hall)
      as (st' & Hrun & Hlog & Hin & Hbook).
    exists st'. rewrite Hrun, Hlog, Hin, Hbook, <- !app_assoc.
    split; [ reflexivity | ].
    split; [ unfold deliver; simpl; rewrite <- app_assoc; reflexivity | ].
    split; [ unfold deliver; simpl; destruct (sock st); reflexivity | reflexivity ].
Qed.

Lemma pass_without_failures_witness :
  let H := sample_engine [] [] [] in
  Forall no_intervention [unreachable_ping; unreachable_bytes] /\
  exists st',
    process_results ∅ [unreachable_ping; unreachable_bytes] [] (connected []) =
    Ret [unreachable_ping; unreachable_bytes] st' /\
    log st' = [Emit (report unreachable_ping); Emit (report unreachable_bytes)].
Proof.
  cbv zeta.
  assert (Hall : Forall no_intervention [unreachable_ping; unreachable_bytes])
    by (repeat constructor; left; reflexivity).
  split; [ exact Hall | ].
  destruct (pass_without_failures (H := sample_engine [] [] []) ∅
              [unreachable_ping; unreachable_bytes] [] (connected []) Hall)
    as (st' & Hrun & Hlog & _).
  exists st'. split; [ exact Hrun | exact Hlog ].
Defined.

Lemma wait_for_command_degraded (st : state) :
  sock st = None ->
  _wait_for_command st = Ret ("Continue", PNone) (add_event AwaitCommand st).
Proof.
  intros Hs. unfold _wait_for_command, bind, modify, get, ret. simpl.
  rewrite Hs. reflexivity.
Qed.

Lemma debug_loop_degraded `{Engine} (prev_host_states : gmap string HostState)
    (res : TaskResult) (safe_result : pyval) (cleaned_results : list TaskResult)
    (fuel : nat) (st : state) :
  sock st = None ->
  debug_loop (S fuel) prev_host_states res safe_result cleaned_results st =
  Ret (cleaned_results ++ [res])
      (deliver (TaskResultMsg (task_name res) (host_name res) false true safe_result)
         (add_event AwaitCommand st)).
Proof.
  intros Hs. cbn [debug_loop]. unfold bind at 1.
  rewrite (wait_for_command_degraded st Hs). cbv beta iota.
  change (String.eqb "Continue" "Retry") with false.
  change (String.eqb "Continue" "ModifyVar") with false.
  change (String.eqb "Continue" "Continue") with true. cbv iota.
  unfold bind. rewrite send_delivers. reflexivity.
Qed.

Lemma process_results_degraded `{Engine} (prev_host_states : gmap string HostState)
    (results : list TaskResult) :
  forall cleaned_results st,
    sock st = None ->
    exists st',
      process_results prev_host_states results cleaned_results st =
      Ret (cleaned_results ++ results) st' /\
      sock st' = None /\ bookkeeping st' = bookkeeping st /\
      extra_vars st' = extra_vars st /\
      requeues (log st') = requeues (log st).
Proof.
  induction results as [ | res results IH ]; intros cleaned_results st Hs.
  - exists st. rewrite app_nil_r. repeat split. exact Hs.
  - cbn [process_results]. unfold bind.
    assert (Hone : exists st1,
               process_result prev_host_states res cleaned_results st =
               Ret (cleaned_results ++ [res]) st1 /\
               sock st1 = None /\ bookkeeping st1 = bookkeeping st /\
               extra_vars st1 = extra_vars st /\
               requeues (log st1) = requeues (log st)).
    { unfold process_result.
      destruct (is_unreachable res);
        [ unfold bind; rewrite send_delivers; eexists; split; [ reflexivity | ];
          unfold deliver; simpl; rewrite Hs, requeues_app; simpl;
          repeat split; lia | ].
      destruct (is_failed res);
        [ | unfold bind; rewrite send_delivers; eexists; split; [ reflexivity | ];
            unfold deliver; simpl; rewrite Hs, requeues_app; simpl;
            repeat split; lia ].
      unfold bind at 1. rewrite send_delivers. unfold bind, get, loop_fuel.
      rewrite debug_loop_degraded by (unfold deliver; simpl; rewrite Hs; reflexivity).
      eexists; split; [ reflexivity | ].
      unfold deliver; simpl; rewrite Hs; simpl. rewrite !requeues_app. simpl.
      repeat split; lia. }
    destruct Hone as (st1 & -> & Hs1 & Hbook1 & Hvars1 & Hreq1).
    destruct (IH (cleaned_results ++ [res]) st1 Hs1)
      as (st' & Hrun & Hs' & Hbook & Hvars & Hreq).
    exists st'. rewrite Hrun, <- app_assoc.
    repeat split; [ exact Hs' | congruence .. ].
Qed.

(** X14: on a degraded session a pass never waits and never raises: every
    failure is taken as accepted, every result is kept, nothing is queued
    again, and the bookkeeping and the overrides stay as they were. *)
Theorem degraded_pass `{Engine} (prev_host_states : gmap string HostState)
    (results cleaned_results : list TaskResult) (st : state) :
  sock st = None ->
  exists st',
    process_results prev_host_states results cleaned_results st =
    Ret (cleaned_results ++ results) st' /\
    sock st' = None /\ bookkeeping st' = bookkeeping st /\
    extra_vars st' = extra_vars st /\
    requeues (log st') = requeues (log st).
Proof.
  exact (process_results_degraded prev_host_states results cleaned_results st).
Qed.

Lemma degraded_pass_witness :
  let H := sample_engine [] [] [] in
  sock (idle None) = None /\
  exists st',
    process_results ∅ [failed_copy; unreachable_ping] [] (idle None) =
    Ret [failed_copy; unreachable_ping] st' /\
    sock st' = None /\ bookkeeping st' = bookkeeping (idle None).
Proof.
  cbv zeta. split; [ reflexivity | ].
  destruct (degraded_pass (H := sample_engine [] [] []) ∅
              [failed_copy; unreachable_ping] [] (idle None) eq_refl)
    as (st' & Hrun & Hs & Hbook & _).
  exists st'. split; [ exact Hrun | split; [ exact Hs | exact Hbook ] ].
Defined.

(** ** Commands the loop cannot take *)

Lemma process_results_raise `{Engine} (prev_host_states : gmap string HostState)
    (res : TaskResult) (others cleaned_results : list TaskResult) (st st' : state)
    (e : exn) :
  process_result prev_host_states res cleaned_results st = Raise e st' ->
  process_results prev_host_states (res :: others) cleaned_results st = Raise e st'.
Proof.
  intros Hone. cbn [process_results]. unfold bind. rewrite Hone. reflexivity.
Qed.

Lemma modify_var_raises (payload : pyval) (st : state) :
  (is_dict payload = false -> modify_var payload st = Raise AttributeError st) /\
  (forall items key,
      payload = PDict items -> dict_get (KStr "key") items = Some key ->
      truthy key = true -> hashable key = None ->
      modify_var payload st = Raise TypeError st).
Proof.
  split.
  - destruct payload; try discriminate; reflexivity.
  - intros items key -> Hkey Htruthy Hhash. unfold modify_var.
    rewrite Hkey. simpl. rewrite Htruthy, Hhash. reflexivity.
Qed.

(** X15: a [ModifyVar] whose payload is no dict ends the pass with
    [AttributeError], and one whose key is a non-empty list or dict ends
    it with [TypeError]: the loop does not catch them, nothing is written,
    and the results that follow are not processed. *)
Theorem modify_var_malformed_aborts_pass `{Engine}
    (prev_host_states : gmap string HostState) (res : TaskResult)
    (others cleaned_results : list TaskResult) (st : state) (msg payload : pyval)
    (rest : list string) :
  is_unreachable res = false -> is_failed res = true ->
  next_message st msg rest ->
  py_eq_str msg "Retry" = false -> modify_var_payload msg = Some payload ->
  let safe_result := _serialize_safe (PDict (_return_data res)) 0 in
  let awaiting :=
    consume rest (add_event AwaitCommand
                    (deliver (TaskFail (task_name res) safe_result) st)) in
  (is_dict payload = false ->
   process_results prev_host_states (res :: others) cleaned_results st =
   Raise AttributeError awaiting) /\
  (forall items key,
      payload = PDict items -> dict_get (KStr "key") items = Some key ->
      truthy key = true -> hashable key = None ->
      process_results prev_host_states (res :: others) cleaned_results st =
      Raise TypeError awaiting).
Proof.
  intros Hu Hf Hnext Hretry Hpayload. cbv zeta.
  assert (Hloop : forall e st',
             modify_var payload
               (consume rest
                  (add_event AwaitCommand
                     (deliver (TaskFail (task_name res)
                                 (_serialize_safe (PDict (_return_data res)) 0)) st)))
             = Raise e st' ->
             process_results prev_host_states (res :: others) cleaned_results st
             = Raise e st').
  { intros e st' Hmod. apply process_results_raise.
    rewrite (process_result_failed _ _ res st Hu Hf). cbv zeta. unfold loop_fuel.
    rewrite (debug_loop_modify_var _ _ _ _ _ _ payload msg rest
               (next_message_deliver _ _ _ _ Hnext) Hretry Hpayload).
    unfold bind. rewrite Hmod. reflexivity. }
  split.
  - intros Hdict. apply Hloop. apply modify_var_raises. exact Hdict.
  - intros items key Heq Hkey Htruthy Hhash. apply Hloop.
    exact (proj2 (modify_var_raises payload _) items key Heq Hkey Htruthy Hhash).
Qed.

Lemma modify_var_malformed_aborts_pass_witness :
  let H := sample_engine [] [] [] in
  (exists st',
      process_results ∅ [failed_copy; unreachable_ping] []
        (connected [modify_var_number_line]) = Raise AttributeError st') /\
  (exists st',
      process_results ∅ [failed_copy; unreachable_ping] []
        (connected [modify_var_list_key_line]) = Raise TypeError st').
Proof.
  cbv zeta. split.
  - assert (Hnext : next_message (connected [modify_var_number_line])
                      (PDict [(KStr "ModifyVar", PInt 5)]) [])
      by next_message_by_computation.
    eexists.
    exact (proj1 (modify_var_malformed_aborts_pass (H := sample_engine [] [] []) ∅
                    failed_copy [unreachable_ping] [] _ _ (PInt 5) []
                    eq_refl eq_refl Hnext eq_refl eq_refl) eq_refl).
  - assert (Hnext : next_message (connected [modify_var_list_key_line])
                      (PDict [(KStr "ModifyVar",
                               PDict [(KStr "key", PList [PInt 1]);
                                      (KStr "value", PInt 2)])]) [])
      by next_message_by_computation.
    eexists.
    exact (proj2 (modify_var_malformed_aborts_pass (H := sample_engine [] [] []) ∅
                    failed_copy [unreachable_ping] [] _ _ _ []
                    eq_refl eq_refl Hnext eq_refl eq_refl)
             _ (PList [PInt 1]) eq_refl eq_refl eq_refl eq_refl).
Defined.

(** X16: bytes that are not UTF-8 in the first read after a failure end
    the pass with [UnicodeDecodeError]: the wait for a command does not
    catch what [decode] raises. *)
Theorem command_bytes_abort_pass `{Engine}
    (prev_host_states : gmap string HostState) (res : TaskResult)
    (others cleaned_results : list TaskResult) (st : state) (s : socket)
    (raw : string) (rest : list string) :
  is_unreachable res = false -> is_failed res = true ->
  sock st = Some s -> inbound s = raw :: rest -> utf8_decode raw = None ->
  let safe_result := _serialize_safe (PDict (_return_data res)) 0 in
  process_results prev_host_states (res :: others) cleaned_results st =
  Raise UnicodeDecodeError
    (consume rest (add_event AwaitCommand
                     (deliver (TaskFail (task_name res) safe_result) st))).
Proof.
  intros Hu Hf Hs Hin Hraw. cbv zeta. apply process_results_raise.
  rewrite (process_result_failed _ _ res st Hu Hf). cbv zeta. unfold loop_fuel.
  cbn [debug_loop]. unfold bind at 1.
  unfold _wait_for_command, bind, modify, get, consume, deliver. simpl.
  rewrite Hs. simpl. unfold on_socket. simpl. rewrite Hin.
  cbn [wait_for_command_loop]. rewrite Hraw. reflexivity.
Qed.

Lemma command_bytes_abort_pass_witness :
  let H := sample_engine [] [] [] in
  utf8_decode (String (ascii_of_N 255) "") = None /\
  exists st',
    process_results ∅ [failed_copy; unreachable_ping] []
      (connected [String (ascii_of_N 255) ""]) = Raise UnicodeDecodeError st'.
Proof.
  cbv zeta. split; [ reflexivity | ]. eexists.
  exact (command_bytes_abort_pass (H := sample_engine [] [] []) ∅ failed_copy
           [unreachable_ping] [] (connected [String (ascii_of_N 255) ""])
           (mkSocket [String (ascii_of_N 255) ""] []) _ [] eq_refl eq_refl
           eq_refl eq_refl eq_refl).
Defined.

(** X17: what follows the first command in a read is lost.  Each wait
    starts from an empty buffer, so after a [ModifyVar] that came with
    more bytes behind it in the same read, [Continue] for one, the
    override is written and the loop waits for a read that has yet to
    come. *)
Theorem command_behind_command_is_lost `{Engine}
    (prev_host_states : gmap string HostState) (res : TaskResult)
    (cleaned_results : list TaskResult) (st : state) (msg : pyval)
    (items : list (pykey * pyval)) (key : string) (value : pyval) :
  is_unreachable res = false -> is_failed res = true ->
  next_message st msg [] ->
  py_eq_str msg "Retry" = false ->
  modify_var_payload msg = Some (PDict items) ->
  dict_get (KStr "key") items = Some (PStr key) -> key <> "" ->
  dict_get (KStr "value") items = Some value ->
  exists st',
    process_result prev_host_states res cleaned_results st = Block st' /\
    extra_vars st' = dict_set (KStr key) value (extra_vars st) /\
    pending st' = 0.
Proof.
  intros Hu Hf Hnext Hretry Hpayload Hkey Hne Hvalue.
  pose proof Hnext as (s & Hs & raw & line & buffer' & Hin & _).
  rewrite (process_result_failed _ _ res st Hu Hf). cbv zeta.
  assert (Hfuel : forall d, loop_fuel (deliver d st) = 2).
  { intros d. unfold loop_fuel, deliver. simpl. rewrite Hs. simpl.
    rewrite Hin. reflexivity. }
  rewrite Hfuel.
  rewrite (debug_loop_modify_var _ _ _ _ _ _ (PDict items) msg []
             (next_message_deliver _ _ _ _ Hnext) Hretry Hpayload).
  unfold bind at 1.
  rewrite (modify_var_writes items key value _ Hkey Hne Hvalue).
  cbn [debug_loop]. unfold bind at 1.
  unfold _wait_for_command, bind, modify, get, consume, deliver. simpl.
  rewrite Hs. simpl. unfold on_socket. simpl.
  eexists. split; [ reflexivity | ]. split; reflexivity.
Qed.

Lemma command_behind_command_is_lost_witness :
  let H := sample_engine [] [] [] in
  let st := connected [modify_var_line "x" "y" +:+ signal_line "Continue"] in
  next_message st
    (PDict [(KStr "ModifyVar", PDict [(KStr "key", PStr "x"); (KStr "value", PStr "y")])])
    [] /\
  exists st',
    process_result ∅ failed_copy [] st = Block st' /\
    extra_vars st' = [(KStr "x", PStr "y")].
Proof.
  cbv zeta.
  assert (Hnext : next_message
                    (connected [modify_var_line "x" "y" +:+ signal_line "Continue"])
                    (PDict [(KStr "ModifyVar",
                             PDict [(KStr "key", PStr "x"); (KStr "value", PStr "y")])])
                    [])
    by next_message_by_computation.
  split; [ exact Hnext | ].
  assert (Hne : "x" <> "") by discriminate.
  destruct (command_behind_command_is_lost (H := sample_engine [] [] []) ∅ failed_copy
              [] _ _ [(KStr "key", PStr "x"); (KStr "value", PStr "y")] "x" (PStr "y")
              eq_refl eq_refl Hnext eq_refl eq_refl eq_refl Hne eq_refl)
    as (st' & Hrun & Hvars & _).
  exists st'. split; [ exact Hrun | exact Hvars ].
Defined.

(** ** Connecting *)

Lemma split_colon_first (host port : string) :
  split_colon host = None ->
  split_colon (host +:+ ":" +:+ port) = Some (host, port).
Proof.
  induction host as [ | c host IH ]; simpl; [ reflexivity | ].
  destruct (N_of_ascii c =? 58)%N; [ discriminate | ].
  destruct (split_colon host) as [ [h p] | ] eqn:Hhost; [ discriminate | ].
  intros _. rewrite IH by reflexivity. reflexivity.
Qed.

Section Connecting.
Context `{Network}.
Variable env : environ.

(** The handshake on a fresh connection that will bring [inb]. *)
Lemma handshake_runs (inb : list string) (st : state) :
  let line := wire (Handshake (PILOTEER_SECRET env)) in
  let greeted :=
    add_event AwaitProceed
      (add_event (Emit (Handshake (PILOTEER_SECRET env))) st) in
  try_except
    (_send (Handshake (PILOTEER_SECRET env)) ;;; _wait_for_proceed)
    (fun _ => modify (set_sock None))
    (set_sock (Some (mkSocket inb [])) st) =
  match wait_for_proceed_loop inb "" with
  | Got _ rest => Ret tt (set_sock (Some (mkSocket rest [line])) greeted)
  | Stalled => Block (set_sock (Some (mkSocket [] [line])) greeted)
  | Undecodable _ => Ret tt (set_sock None greeted)
  end.
Proof.
  cbv zeta. unfold try_except, bind at 1. rewrite send_delivers.
  unfold _wait_for_proceed, bind, modify, get, on_socket, deliver. simpl.
  destruct (wait_for_proceed_loop inb "") as [ [] rest | | rest ]; reflexivity.
Qed.

Lemma connect_runs (st : state) :
  let line := wire (Handshake (PILOTEER_SECRET env)) in
  let greeted :=
    add_event AwaitProceed
      (add_event (Emit (Handshake (PILOTEER_SECRET env))) st) in
  _connect_to_piloteer env st =
  match match split_colon (default "/tmp/piloteer.sock" (PILOTEER_SOCKET env)) with
        | Some (host, port) => connect_tcp host port
        | None => connect_unix (default "/tmp/piloteer.sock" (PILOTEER_SOCKET env))
        end with
  | Some inb =>
      match wait_for_proceed_loop inb "" with
      | Got _ rest => Ret tt (set_sock (Some (mkSocket rest [line])) greeted)
      | Stalled => Block (set_sock (Some (mkSocket [] [line])) greeted)
      | Undecodable _ => Ret tt (set_sock None greeted)
      end
  | None => Ret tt (set_sock None st)
  end.
Proof.
  cbv zeta. unfold _connect_to_piloteer.
  destruct (match split_colon (default "/tmp/piloteer.sock" (PILOTEER_SOCKET env)) with
            | Some (host, port) => connect_tcp host port
            | None => connect_unix (default "/tmp/piloteer.sock" (PILOTEER_SOCKET env))
            end) as [ inb | ]; [ | reflexivity ].
  unfold bind at 1.
  change (modify (set_sock (Some (mkSocket inb []))) st)
    with (Ret tt (set_sock (Some (mkSocket inb [])) st)).
  cbv beta iota. apply handshake_runs.
Qed.

(** X18: connecting never raises.  It returns or, with a peer that is
    there and stays silent, waits; it leaves the session degraded, or
    connected with the handshake as the one line sent; the engine's
    bookkeeping is not touched. *)
Theorem connect_never_raises (st : state) :
  exists st',
    (_connect_to_piloteer env st = Ret tt st' \/
     _connect_to_piloteer env st = Block st') /\
    (sock st' = None \/
     exists inb,
       sock st' = Some (mkSocket inb [wire (Handshake (PILOTEER_SECRET env))])) /\
    bookkeeping st' = bookkeeping st.
Proof.
  rewrite connect_runs. cbv zeta.
  destruct (match split_colon (default "/tmp/piloteer.sock" (PILOTEER_SOCKET env)) with
            | Some (host, port) => connect_tcp host port
            | None => connect_unix (default "/tmp/piloteer.sock" (PILOTEER_SOCKET env))
            end) as [ inb | ].
  - destruct (wait_for_proceed_loop inb "") as [ [] rest | | rest ];
      eexists; (split; [ (left; reflexivity) || (right; reflexivity) | ]);
      (split; [ (left; reflexivity) || (right; eexists; reflexivity) | reflexivity ]).
  - eexists. split; [ left; reflexivity | ]. split; [ left; reflexivity | reflexivity ].
Qed.

(** X19: how the handshake ends on a connection that came about.  A
    first line that decodes to [Proceed] leaves the session connected; so
    does a peer that closes without a word; bytes that are not UTF-8 are
    caught here and leave the session degraded. *)
Theorem handshake_outcomes (st : state) (inb : list string) :
  match split_colon (default "/tmp/piloteer.sock" (PILOTEER_SOCKET env)) with
  | Some (host, port) => connect_tcp host port
  | None => connect_unix (default "/tmp/piloteer.sock" (PILOTEER_SOCKET env))
  end = Some inb ->
  let line := wire (Handshake (PILOTEER_SECRET env)) in
  let greeted :=
    add_event AwaitProceed
      (add_event (Emit (Handshake (PILOTEER_SECRET env))) st) in
  (forall rest,
      first_line inb (PStr "Proceed") rest ->
      _connect_to_piloteer env st =
      Ret tt (set_sock (Some (mkSocket rest [line])) greeted)) /\
  (forall rest,
      inb = "" :: rest ->
      _connect_to_piloteer env st =
      Ret tt (set_sock (Some (mkSocket ("" :: rest) [line])) greeted)) /\
  (forall raw rest,
      inb = raw :: rest -> utf8_decode raw = None ->
      _connect_to_piloteer env st = Ret tt (set_sock None greeted)).
Proof.
  intros Hconnected. cbv zeta. rewrite connect_runs. cbv zeta. rewrite Hconnected.
  split; [ | split ].
  - intros rest (raw & line & buffer' & -> & Hne & [cps Hdec] & Hsplit & Hloads).
    cbn [wait_for_proceed_loop]. rewrite Hdec, Hne.
    change ("" +:+ raw) with raw. rewrite Hsplit, Hloads. reflexivity.
  - intros rest ->. reflexivity.
  - intros raw rest -> Hraw. cbn [wait_for_proceed_loop]. rewrite Hraw. reflexivity.
Qed.

(** X20: an address with a colon in it is taken for [host:port], split at
    its first colon, and only TCP is tried: when that connection does not
    come about the session is degraded and nothing is sent, whatever a
    local socket of that name would have answered. *)
Theorem colon_address_is_tcp (st : state) (host port : string) :
  PILOTEER_SOCKET env = Some (host +:+ ":" +:+ port) ->
  split_colon host = None ->
  connect_tcp host port = None ->
  _connect_to_piloteer env st = Ret tt (set_sock None st).
Proof.
  intros Haddr Hhost Htcp. unfold _connect_to_piloteer. rewrite Haddr.
  cbn [from_option id]. rewrite (split_colon_first host port Hhost), Htcp. reflexivity.
Qed.
End Connecting.

Lemma handshake_outcomes_witness :
  let N := sample_network [signal_line "Proceed"] in
  let env := mkEnviron None (Some "s3cret") in
  first_line [signal_line "Proceed"] (PStr "Proceed") [] /\
  _connect_to_piloteer env (idle None) =
  Ret tt (set_sock (Some (mkSocket [] [wire (Handshake (Some "s3cret"))]))
            (add_event AwaitProceed
               (add_event (Emit (Handshake (Some "s3cret"))) (idle None)))).
Proof.
  cbv zeta.
  assert (Hfirst : first_line [signal_line "Proceed"] (PStr "Proceed") [])
    by first_line_by_computation.
  split; [ exact Hfirst | ].
  exact (proj1 (handshake_outcomes (H := sample_network [signal_line "Proceed"])
                  (mkEnviron None (Some "s3cret")) (idle None)
                  [signal_line "Proceed"] eq_refl) [] Hfirst).
Defined.

Lemma colon_address_is_tcp_witness :
  let N := local_only [signal_line "Proceed"] in
  let env := mkEnviron (Some "/tmp/pilot:eer.sock") None in
  connect_unix "/tmp/pilot:eer.sock" = Some [signal_line "Proceed"] /\
  _connect_to_piloteer env (idle None) = Ret tt (set_sock None (idle None)).
Proof.
  cbv zeta. split; [ reflexivity | ].
  exact (colon_address_is_tcp (H := local_only [signal_line "Proceed"])
           (mkEnviron (Some "/tmp/pilot:eer.sock") None) (idle None)
           "/tmp/pilot" "eer.sock" eq_refl eq_refl eq_refl).
Defined.

(** X21: with no controller to connect to, the strategy starts degraded
    and a pass goes through as if the plugin were not there: every result
    is kept, nothing waits, nothing is queued again and the bookkeeping is
    the engine's own. *)
Theorem absent_controller `{Network} `{Engine} (env : environ) (st : state)
    (prev_host_states : gmap string HostState) (results : list TaskResult) :
  match split_colon (default "/tmp/piloteer.sock" (PILOTEER_SOCKET env)) with
  | Some (host, port) => connect_tcp host port
  | None => connect_unix (default "/tmp/piloteer.sock" (PILOTEER_SOCKET env))
  end = None ->
  exists st0 st',
    __init__ env st = Ret tt st0 /\
    process_results prev_host_states results [] st0 = Ret results st' /\
    sock st' = None /\ bookkeeping st' = bookkeeping st /\
    requeues (log st') = requeues (log st).
Proof.
  intros Hrefused.
  assert (Hinit : __init__ env st = Ret tt (set_sock None (set_sock None st))).
  { unfold __init__, bind, modify. rewrite connect_runs. cbv zeta.
    simpl PILOTEER_SOCKET. rewrite Hrefused. reflexivity. }
  destruct (process_results_degraded prev_host_states results [] (set_sock None (set_sock None st))
              eq_refl) as (st' & Hrun & Hs & Hbook & _ & Hreq).
  exists (set_sock None (set_sock None st)), st'.
  split; [ exact Hinit | ]. split; [ exact Hrun | ].
  split; [ exact Hs | ]. split; [ exact Hbook | exact Hreq ].
Qed.

Lemma absent_controller_witness :
  let N := dead_network in
  let E := sample_engine [] [] [] in
  exists st0 st',
    __init__ (mkEnviron None None) (idle None) = Ret tt st0 /\
    process_results ∅ [failed_copy; unreachable_ping] [] st0 =
    Ret [failed_copy; unreachable_ping] st' /\
    sock st' = None.
Proof.
  cbv zeta.
  destruct (absent_controller (H := dead_network) (H0 := sample_engine [] [] [])
              (mkEnviron None None) (idle None) ∅ [failed_copy; unreachable_ping]
              eq_refl) as (st0 & st' & Hinit & Hrun & Hs & _).
  exists st0, st'. split; [ exact Hinit | split; [ exact Hrun | exact Hs ] ].
Defined.

(** ** One message, one line *)

Lemma unbroken_append (a b : string) :
  unbroken a -> unbroken b -> unbroken (a +:+ b).
Proof.
  unfold unbroken. induction a as [ | c a IH ]; simpl; [ tauto | ].
  destruct (N_of_ascii c =? 10)%N; [ discriminate | ].
  destruct (split_line a) as [ [l r] | ]; [ discriminate | ].
  intros _ Hb. rewrite (IH eq_refl Hb). reflexivity.
Qed.
















(** ** Running a play *)

Lemma append_empty_r (p : string) : p +:+ "" = p.
Proof.
  induction p as [ | c p IH ]; [ reflexivity | ].
  change (String c p +:+ "") with (String c (p +:+ "")). rewrite IH. reflexivity.
Qed.

Lemma concat_empty_cons (p : string) (parts : list string) :
  String.concat "" (p :: parts) = p +:+ String.concat "" parts.
Proof.
  destruct parts as [ | q parts ]; [ | reflexivity ].
  change (String.concat "" [p]) with p. change (String.concat "" []) with "".
  rewrite append_empty_r. reflexivity.
Qed.

Lemma plain_text_decodes (s : string) :
  plain_text s = true ->
  utf8_decode s = Some (N_of_ascii <$> list_ascii_of_string s).
Proof.
  unfold plain_text. induction s as [ | c s IH ]; simpl; [ reflexivity | ].
  intros Hs. apply andb_true_iff in Hs as [ Hc Hs ].
  repeat (apply andb_true_iff in Hc as [ Hc ? ]).
  apply N.leb_le in Hc.
  assert (Hlow : (N_of_ascii c <? 128)%N = true) by (apply N.ltb_lt; apply N.leb_le in H1; lia).
  rewrite Hlow, (IH Hs). reflexivity.
Qed.

Lemma escape_plain_char (c : ascii) :
  (let b := N_of_ascii c in
   (32 <=? b) && (b <=? 126) && negb (b =? 34) && negb (b =? 92))%N = true ->
  escape_code_point (N_of_ascii c) = String c EmptyString.
Proof.
  cbv zeta. intros Hc.
  repeat (apply andb_true_iff in Hc as [ Hc ? ]).
  apply N.leb_le in Hc. apply N.leb_le in H1.
  apply negb_true_iff in H0, H. apply N.eqb_neq in H0, H.
  unfold escape_code_point.
  repeat match goal with
         | |- (if (?x =? ?y)%N then _ else _) = _ =>
             destruct (N.eqb_spec x y); [ lia | ]
         end.
  assert (Hin : ((32 <=? N_of_ascii c) && (N_of_ascii c <=? 126))%N = true)
    by (apply andb_true_iff; split; apply N.leb_le; lia).
  rewrite Hin, ascii_N_embedding. reflexivity.
Qed.

(** Plain text goes between quotes as it is. *)
Lemma encode_plain_text (s : string) :
  plain_text s = true -> encode_basestring_ascii s = jstr s.
Proof.
  intros Hs. unfold encode_basestring_ascii, jstr, code_points.
  rewrite (plain_text_decodes s Hs). simpl default. do 2 f_equal.
  unfold plain_text in Hs. induction s as [ | c s IH ]; [ reflexivity | ].
  simpl in Hs. apply andb_true_iff in Hs as [ Hc Hs ].
  simpl list_ascii_of_string. rewrite fmap_cons, fmap_cons, concat_empty_cons.
  rewrite (escape_plain_char c Hc), (IH Hs). reflexivity.
Qed.

Lemma append_assoc (a b c : string) : (a +:+ b) +:+ c = a +:+ b +:+ c.
Proof.
  induction a as [ | x a IH ]; [ reflexivity | ].
  change ((String x a +:+ b) +:+ c) with (String x ((a +:+ b) +:+ c)).
  rewrite IH. reflexivity.
Qed.

Lemma play_start_wire (name host_pattern : string) :
  plain_text name = true -> plain_text host_pattern = true ->
  wire (PlayStart name host_pattern) = play_start_line name host_pattern.
Proof.
  intros Hname Hpattern. unfold wire, PlayStart. rewrite json_dumps_message.
  cbn [json_dumps mapM fst snd json_dumps_key].
  rewrite (encode_plain_text name Hname), (encode_plain_text host_pattern Hpattern).
  rewrite (encode_plain_text "name" eq_refl),
    (encode_plain_text "host_pattern" eq_refl),
    (encode_plain_text "PlayStart" eq_refl).
  cbn [mbind option_bind mret option_ret fmap option_fmap option_map].
  unfold play_start_line. cbn [String.concat].
  rewrite !append_assoc. reflexivity.
Qed.

Section Running.
Context `{Play}.

(** X23: on a connected session [run] first records the play context it
    was given, then sends [PlayStart] and only then lets the engine run.
    For a play name and a host pattern of plain text the line on the wire
    is [{"PlayStart": {"name": "...", "host_pattern": "..."}}], with a
    space after each colon and comma, and a newline. *)
Theorem run_opens_with_play_start (play_context : PlayContext) (st : state)
    (s : socket) :
  sock st = Some s ->
  let entered := set_play_context play_context st in
  plain_text (play_get_name entered) = true ->
  plain_text (play_hosts entered) = true ->
  let line := play_start_line (play_get_name entered) (play_hosts entered) in
  let started :=
    set_sock (Some (mkSocket (inbound s) (outbound s ++ [line])))
      (add_event (Emit (PlayStart (play_get_name entered) (play_hosts entered)))
         entered) in
  run play_context st = bind (linear_run play_context) send_recap started.
Proof.
  intros Hs. cbv zeta. intros Hname Hpattern.
  unfold run, bind at 1, modify at 1, bind at 1, get at 1, bind at 1.
  rewrite send_delivers. unfold deliver.
  rewrite (play_start_wire _ _ Hname Hpattern).
  simpl sock. rewrite Hs. reflexivity.
Qed.

(** The recap closes a run that returned, and only that: when the
    engine's run returns, [run] returns the same result after sending
    [PlayRecap] with the seven counters (or nothing, without statistics);
    when the engine's run raises or does not return, no recap is sent. *)
Theorem run_recap_only_on_return (play_context : PlayContext) (st : state) :
  let entered := set_play_context play_context st in
  let started :=
    deliver (PlayStart (play_get_name entered) (play_hosts entered)) entered in
  (forall result st2,
      linear_run play_context started = Ret result st2 ->
      run play_context st =
      Ret result match tqm_stats st2 with
                 | Some stats => deliver (PlayRecap stats) st2
                 | None => st2
                 end) /\
  (forall st2,
      linear_run play_context started = Block st2 -> run play_context st = Block st2) /\
  (forall e st2,
      linear_run play_context started = Raise e st2 ->
      run play_context st = Raise e st2).
Proof.
  cbv zeta.
  assert (Hrun : run play_context st =
                 bind (linear_run play_context) send_recap
                   (deliver (PlayStart (play_get_name (set_play_context play_context st))
                               (play_hosts (set_play_context play_context st)))
                      (set_play_context play_context st))).
  { unfold run, bind at 1, modify at 1, bind at 1, get at 1, bind at 1.
    rewrite send_delivers. reflexivity. }
  rewrite Hrun.
  split; [ | split ].
  - intros result st2 Hengine. unfold bind at 1. rewrite Hengine.
    unfold send_recap, bind, get, ret.
    destruct (tqm_stats st2); [ rewrite send_delivers | ]; reflexivity.
  - intros st2 Hengine. unfold bind at 1. rewrite Hengine. reflexivity.
  - intros e st2 Hengine. unfold bind at 1. rewrite Hengine. reflexivity.
Qed.
End Running.

Lemma run_opens_with_play_start_witness :
  let P := sample_play None in
  run (PlayContextRef 1) (connected []) =
  bind (linear_run (PlayContextRef 1)) send_recap
    (set_sock (Some (mkSocket [] [play_start_line "deploy" "web*"]))
       (add_event (Emit (PlayStart "deploy" "web*"))
          (set_play_context (PlayContextRef 1) (connected [])))).
Proof.
  cbv zeta.
  exact (run_opens_with_play_start (H := sample_play None) (PlayContextRef 1)
           (connected []) (mkSocket [] []) eq_refl eq_refl eq_refl).
Defined.

Lemma run_recap_only_on_return_witness :
  let stats := mkStats [(KStr "web1", PInt 3)] [] [(KStr "web1", PInt 1)] [] [] [] [] in
  let P := sample_play (Some stats) in
  let started :=
    deliver (PlayStart "deploy" "web*")
      (set_play_context (PlayContextRef 1) (idle None)) in
  run (PlayContextRef 1) (idle None) = Ret (PInt 0) (deliver (PlayRecap stats) started).
Proof.
  cbv zeta.
  exact (proj1 (run_recap_only_on_return
                  (H := sample_play
                          (Some (mkStats [(KStr "web1", PInt 3)] []
                                   [(KStr "web1", PInt 1)] [] [] [] [])))
                  (PlayContextRef 1) (idle None)) (PInt 0) _ eq_refl).
Defined.

(** ** The pre-dispatch hook on any session *)




(** ** An override, then a retry *)

Lemma retry_requeue `{Engine} (prev_host_states : gmap string HostState)
    (res : TaskResult) (st : state) :
  let host := host_name res in
  exists st5 task_vars ctx,
    retry prev_host_states res st =
    Ret tt (add_event (Requeue host (_task res) task_vars ctx) st5) /\
    (task_vars, ctx) =
    match _queued_task_cache st !! (host, _uuid (_task res)) with
    | Some cached => (cached_task_vars cached, cached_play_context cached)
    | None => (get_vars true host (_task res) st5, play_context st)
    end /\
    extra_vars st5 = extra_vars st /\ log st5 = log st.
Proof.
  cbv zeta. unfold retry, _queue_task, bind, modify, get, ret.
  destruct (prev_host_states !! host_name res) as [ position | ]; simpl;
    destruct (_queued_task_cache st !! (host_name res, _uuid (_task res)))
      as [ cached | ];
    eexists _, _, _; (split; [ reflexivity | ]); simpl; repeat split.
Qed.

(** X25: a [ModifyVar] followed by a [Retry] writes the override and
    queues the task again, once.  With a cached dispatch context for the
    host and the task, the task goes out with the cached variables, which
    the override has not touched; without one, the variables are resolved
    anew, on a state that holds the override. *)
Theorem override_then_retry `{Engine}
    (prev_host_states : gmap string HostState) (cleaned_results : list TaskResult)
    (res : TaskResult) (st : state) (msg : pyval) (items : list (pykey * pyval))
    (key : string) (value : pyval) (rest1 rest2 : list string) :
  is_unreachable res = false -> is_failed res = true ->
  next_message st msg rest1 ->
  py_eq_str msg "Retry" = false ->
  modify_var_payload msg = Some (PDict items) ->
  dict_get (KStr "key") items = Some (PStr key) -> key <> "" ->
  dict_get (KStr "value") items = Some value ->
  first_line rest1 (PStr "Retry") rest2 ->
  let host := host_name res in
  let safe_result := _serialize_safe (PDict (_return_data res)) 0 in
  exists st5 task_vars ctx,
    process_result prev_host_states res cleaned_results st =
    Ret cleaned_results (add_event (Requeue host (_task res) task_vars ctx) st5) /\
    extra_vars st5 = dict_set (KStr key) value (extra_vars st) /\
    (task_vars, ctx) =
    match _queued_task_cache st !! (host, _uuid (_task res)) with
    | Some cached => (cached_task_vars cached, cached_play_context cached)
    | None => (get_vars true host (_task res) st5, play_context st)
    end /\
    log st5 = log st ++ [Emit (TaskFail (task_name res) safe_result);
                         AwaitCommand; AwaitCommand].
Proof.
  intros Hu Hf Hnext Hnot Hpayload Hkey Hne Hvalue Hretry. cbv zeta.
  pose proof Hnext as (s & Hs & raw & line & buffer' & Hin & _).
  set (reported := deliver (TaskFail (task_name res)
                              (_serialize_safe (PDict (_return_data res)) 0)) st).
  set (overridden := set_extra_vars (dict_set (KStr key) value (extra_vars st))
                       (consume rest1 (add_event AwaitCommand reported))).
  set (awaiting := consume rest2 (add_event AwaitCommand overridden)).
  assert (Hnext2 : next_message overridden (PStr "Retry") rest2).
  { unfold overridden, reported, deliver, consume. simpl. rewrite Hs. simpl.
    eexists. split; [ reflexivity | exact Hretry ]. }
  destruct (retry_requeue prev_host_states res awaiting)
    as (st5 & task_vars & ctx & Hrun & Hargs & Hvars & Hlog).
  exists st5, task_vars, ctx. split.
  - rewrite (process_result_failed _ _ res st Hu Hf). cbv zeta. fold reported.
    assert (Hfuel : loop_fuel reported = S (S (length rest1))).
    { unfold loop_fuel, reported, deliver. simpl. rewrite Hs. simpl.
      rewrite Hin. reflexivity. }
    rewrite Hfuel.
    assert (Hnext1 : next_message reported msg rest1)
      by (apply next_message_deliver; exact Hnext).
    rewrite (debug_loop_modify_var _ _ _ _ _ reported (PDict items) msg rest1
               Hnext1 Hnot Hpayload).
    unfold bind at 1.
    rewrite (modify_var_writes items key value _ Hkey Hne Hvalue).
    replace (extra_vars (consume rest1 (add_event AwaitCommand reported)))
      with (extra_vars st)
      by (unfold reported, deliver, consume; simpl; rewrite Hs; reflexivity).
    fold overridden.
    rewrite (debug_loop_retry _ _ _ _ _ overridden rest2 Hnext2).
    fold awaiting. unfold bind. rewrite Hrun. reflexivity.
  - assert (Hsame : _queued_task_cache awaiting = _queued_task_cache st /\
                    play_context awaiting = play_context st /\
                    extra_vars awaiting = dict_set (KStr key) value (extra_vars st) /\
                    log awaiting =
                    log st ++ [Emit (TaskFail (task_name res)
                                       (_serialize_safe (PDict (_return_data res)) 0));
                               AwaitCommand; AwaitCommand]).
    { unfold awaiting, overridden, reported, deliver, consume. simpl.
      rewrite Hs. simpl. repeat split. rewrite <- !app_assoc. reflexivity. }
    destruct Hsame as (Hcache & Hctx & Hextra & Hlog').
    rewrite Hcache, Hctx in Hargs. rewrite Hvars, Hlog, Hextra, Hlog'.
    split; [ reflexivity | split; [ exact Hargs | reflexivity ] ].
Qed.

Lemma override_then_retry_witness :
  let E := sample_engine [] [] [] in
  exists st5,
    process_result ∅ failed_copy [] cached_retry =
    Ret [] (add_event (Requeue "web1" copy_task [("x", PStr "old")] (PlayContextRef 5))
              st5) /\
    extra_vars st5 = [(KStr "x", PStr "y")].
Proof.
  cbv zeta.
  assert (Hnext : next_message cached_retry
                    (PDict [(KStr "ModifyVar",
                             PDict [(KStr "key", PStr "x"); (KStr "value", PStr "y")])])
                    [signal_line "Retry"])
    by next_message_by_computation.
  assert (Hretry : first_line [signal_line "Retry"] (PStr "Retry") [])
    by first_line_by_computation.
  assert (Hne : "x" <> "") by discriminate.
  destruct (override_then_retry (H := sample_engine [] [] []) ∅ [] failed_copy
              cached_retry _ [(KStr "key", PStr "x"); (KStr "value", PStr "y")]
              "x" (PStr "y") _ [] eq_refl eq_refl Hnext eq_refl eq_refl eq_refl Hne
              eq_refl Hretry)
    as (st5 & task_vars & ctx & Hrun & Hvars & Hargs & _).
  vm_compute in Hargs. injection Hargs as -> ->.
  exists st5. split; [ exact Hrun | exact Hvars ].
Defined.

(** ** Lines that come in pieces *)

Lemma wait_for_proceed_loop_pieces (pieces inb : list string) :
  forall buffer,
    unbroken buffer -> Forall piece pieces ->
    wait_for_proceed_loop (pieces ++ inb) buffer =
    wait_for_proceed_loop inb (buffer +:+ String.concat "" pieces).
Proof.
  induction pieces as [ | raw pieces IH ]; intros buffer Hbuffer Hpieces.
  - simpl. rewrite append_empty_r. reflexivity.
  - apply Forall_cons in Hpieces as [ (Hne & [cps Hdec] & Hraw) Hpieces ].
    simpl app. cbn [wait_for_proceed_loop]. rewrite Hdec, Hne.
    pose proof (unbroken_append buffer raw Hbuffer Hraw) as Hjoined.
    unfold unbroken in Hjoined. rewrite Hjoined.
    rewrite (IH (buffer +:+ raw) Hjoined Hpieces).
    rewrite concat_empty_cons, append_assoc. reflexivity.
Qed.

Lemma wait_for_command_loop_pieces (pieces inb : list string) :
  forall buffer,
    unbroken buffer -> Forall piece pieces ->
    wait_for_command_loop (pieces ++ inb) buffer =
    wait_for_command_loop inb (buffer +:+ String.concat "" pieces).
Proof.
  induction pieces as [ | raw pieces IH ]; intros buffer Hbuffer Hpieces.
  - simpl. rewrite append_empty_r. reflexivity.
  - apply Forall_cons in Hpieces as [ (Hne & [cps Hdec] & Hraw) Hpieces ].
    simpl app. cbn [wait_for_command_loop]. rewrite Hdec, Hne.
    pose proof (unbroken_append buffer raw Hbuffer Hraw) as Hjoined.
    unfold unbroken in Hjoined. rewrite Hjoined.
    rewrite (IH (buffer +:+ raw) Hjoined Hpieces).
    rewrite concat_empty_cons, append_assoc. reflexivity.
Qed.

(** X26: a line that comes in several reads is put together before it is
    decoded.  When the reads that bring its pieces are followed by the
    read that brings its end, and the line so joined decodes to [Proceed],
    the gate is released; when it decodes to [Retry], the wait for a
    command returns [Retry]. *)
Theorem line_in_pieces_is_joined (st : state) (pieces : list string)
    (last line buffer' : string) (rest out : list string) (msg : pyval) :
  sock st = Some (mkSocket (pieces ++ last :: rest) out) ->
  Forall piece pieces ->
  String.eqb last "" = false -> is_Some (utf8_decode last) ->
  split_line (String.concat "" pieces +:+ last) = Some (line, buffer') ->
  json_loads line = Some msg ->
  (msg = PStr "Proceed" ->
   _wait_for_proceed st = Ret tt (consume rest (add_event AwaitProceed st))) /\
  (msg = PStr "Retry" ->
   _wait_for_command st =
   Ret ("Retry", PNone) (consume rest (add_event AwaitCommand st))).
Proof.
  intros Hs Hpieces Hne [cps Hdec] Hsplit Hloads. split; intros ->.
  - unfold _wait_for_proceed, bind, modify, get, consume. simpl. rewrite Hs.
    unfold on_socket. simpl inbound.
    rewrite (wait_for_proceed_loop_pieces pieces (last :: rest) "" eq_refl Hpieces).
    change ("" +:+ String.concat "" pieces) with (String.concat "" pieces).
    cbn [wait_for_proceed_loop]. rewrite Hdec, Hne, Hsplit, Hloads. reflexivity.
  - unfold _wait_for_command, bind, modify, get, consume. simpl. rewrite Hs.
    unfold on_socket. simpl inbound.
    rewrite (wait_for_command_loop_pieces pieces (last :: rest) "" eq_refl Hpieces).
    change ("" +:+ String.concat "" pieces) with (String.concat "" pieces).
    cbn [wait_for_command_loop]. rewrite Hdec, Hne, Hsplit, Hloads. reflexivity.
Qed.

Lemma line_in_pieces_is_joined_witness :
  let st := connected [dquote +:+ "Re"; "tr"; "y" +:+ dquote +:+ newline] in
  Forall piece [dquote +:+ "Re"; "tr"] /\
  _wait_for_command st = Ret ("Retry", PNone) (consume [] (add_event AwaitCommand st)).
Proof.
  cbv zeta.
  assert (Hpieces : Forall piece [dquote +:+ "Re"; "tr"]).
  { repeat constructor; try reflexivity; eexists; vm_compute; reflexivity. }
  split; [ exact Hpieces | ].
  refine (proj2 (line_in_pieces_is_joined
                   (connected [dquote +:+ "Re"; "tr"; "y" +:+ dquote +:+ newline])
                   [dquote +:+ "Re"; "tr"] ("y" +:+ dquote +:+ newline)
                   (jstr "Retry") "" [] [] (PStr "Retry")
                   eq_refl Hpieces eq_refl _ _ _) eq_refl).
  - eexists; vm_compute; reflexivity.
  - vm_compute; reflexivity.
  - vm_compute; reflexivity.
Defined.
